(** * HeimdalERP invoicing and sales schema: a verified model

    The repository declares Django models (erp/models/invoice.py,
    erp/models/invoice_ar.py, erp/models/sales.py).  The declarations are
    embedded here as data, field by field and keyword by keyword.  The
    part of the framework that gives them a meaning is embedded as
    executable functions: Field.clean and Model.clean_fields, Model
    instantiation with defaults, INSERT under the NOT NULL, FOREIGN KEY
    and UNIQUE constraints of the tables, and Model.delete through the
    on_delete handlers, over a database that is a finite map from
    (model, primary key) to the attributes of the row.

    What the model leaves out of the framework: the digit count a
    DecimalField validates from max_digits and decimal_places (a rational
    number does not determine the digits of a Decimal), signals, the
    join tables of the many-to-many fields and the parent row that
    multi-table inheritance keeps for an InvoiceAR.  The database holds
    the rows of the models only, one row for each instance.

    Attribute values are stored as they are given.  The framework
    prepares a value for its column before the INSERT: a value of the
    column's own type and range is stored unchanged, any other is
    converted or makes the call raise, and a keyword that names no
    field raises TypeError.  [well_typed] says which attributes are
    stored unchanged; the properties that compare the keys of different
    rows are stated for well-typed attributes.  In the same way
    to_python answers 'invalid' for a value that is not of the field's
    type.  The tables enforce their FOREIGN KEY constraints, as
    PostgreSQL does (SQLite, under the framework releases before 2.0,
    stores a dangling key). *)

From Stdlib Require Import Ascii String ZArith QArith Qcanon.
From stdpp Require Import base decidable option list strings numbers
  countable gmap fin_maps fin_sets sets pretty.

Local Open Scope string_scope.
Local Open Scope Z_scope.

(** ** Python values held by model attributes *)

(** Decimal and float attributes are represented by the rational they
    denote; dates by their proleptic ordinal (datetime.date.toordinal). *)
Inductive Value : Type :=
  | VNone
  | VStr (s : string)
  | VInt (z : Z)
  | VNum (q : Qc)
  | VDate (d : Z)
  | VBool (b : bool).

#[global] Instance Value_eq_dec : EqDecision Value.
Proof. solve_decision. Defined.

(** ** Errors raised by the framework *)

Inductive Error : Type :=
  | ValidationError (code : string)
  | IntegrityError
  | ProtectedError
  | FieldDoesNotExist
  | TypeError.

#[global] Instance Error_eq_dec : EqDecision Error.
Proof. solve_decision. Defined.

Inductive result (A : Type) : Type :=
  | Ok (a : A)
  | Err (e : Error).
Arguments Ok {A} a.
Arguments Err {A} e.

(** django.db.models.deletion: class ProtectedError(IntegrityError). *)
Definition is_integrity_error (e : Error) : bool :=
  match e with
  | IntegrityError | ProtectedError => true
  | _ => false
  end.

Definition is_ok {A} (r : result A) : bool :=
  match r with Ok _ => true | Err _ => false end.

#[global] Instance result_ret : MRet result := λ A a, Ok a.
#[global] Instance result_bind : MBind result := λ A B k r,
  match r with Ok a => k a | Err e => Err e end.

(** ** The models *)

(** The first five are declared by other applications (persons, contact,
    accounting) and only referenced here. *)
Inductive Model : Type :=
  | Company | Contact | PhysicalAddress | Account | Transaction
  | FiscalPosition | CompanyInvoice | ContactInvoice | VAT | Product
  | InvoiceLine | InvoiceType | Invoice | FiscalPositionHasInvoiceTypeAllowed
  | ContactInvoiceAR | CompanyInvoiceAR | WebServiceSession | PointOfSaleAR
  | ConceptType | InvoiceAR | InvoiceARHasVATSubtotal
  | ProductCategory | ProductSales | QuotationLine | Quotation | SaleLine
  | Sale.

#[global] Instance Model_eq_dec : EqDecision Model.
Proof. solve_decision. Defined.

Definition Model_code (m : Model) : positive :=
  match m with
  | Company => 1 | Contact => 2 | PhysicalAddress => 3 | Account => 4
  | Transaction => 5 | FiscalPosition => 6 | CompanyInvoice => 7
  | ContactInvoice => 8 | VAT => 9 | Product => 10 | InvoiceLine => 11
  | InvoiceType => 12 | Invoice => 13
  | FiscalPositionHasInvoiceTypeAllowed => 14 | ContactInvoiceAR => 15
  | CompanyInvoiceAR => 16 | WebServiceSession => 17 | PointOfSaleAR => 18
  | ConceptType => 19 | InvoiceAR => 20 | InvoiceARHasVATSubtotal => 21
  | ProductCategory => 22 | ProductSales => 23 | QuotationLine => 24
  | Quotation => 25 | SaleLine => 26 | Sale => 27
  end%positive.

Definition Model_of_code (p : positive) : option Model :=
  match p with
  | 1 => Some Company | 2 => Some Contact | 3 => Some PhysicalAddress
  | 4 => Some Account | 5 => Some Transaction | 6 => Some FiscalPosition
  | 7 => Some CompanyInvoice | 8 => Some ContactInvoice | 9 => Some VAT
  | 10 => Some Product | 11 => Some InvoiceLine | 12 => Some InvoiceType
  | 13 => Some Invoice | 14 => Some FiscalPositionHasInvoiceTypeAllowed
  | 15 => Some ContactInvoiceAR | 16 => Some CompanyInvoiceAR
  | 17 => Some WebServiceSession | 18 => Some PointOfSaleAR
  | 19 => Some ConceptType | 20 => Some InvoiceAR
  | 21 => Some InvoiceARHasVATSubtotal | 22 => Some ProductCategory
  | 23 => Some ProductSales | 24 => Some QuotationLine | 25 => Some Quotation
  | 26 => Some SaleLine | 27 => Some Sale
  | _ => None
  end%positive.

#[global] Instance Model_countable : Countable Model.
Proof.
  refine (inj_countable Model_code Model_of_code _).
  intros []; reflexivity.
Defined.

(** ** The field declaration language *)

Inductive OnDelete : Type := CASCADE | PROTECT.

#[global] Instance OnDelete_eq_dec : EqDecision OnDelete.
Proof. solve_decision. Defined.

Inductive FieldType : Type :=
  | AutoField | CharField | SlugField | TextField | DateField
  | DecimalField | FloatField | PositiveIntegerField
  | PositiveSmallIntegerField | BigIntegerField | BooleanField
  | ForeignKey (to : Model)
  | OneToOneField (to : Model)
  | ManyToManyField (to : Model).

(** A validator is a callable: it receives the current day (what
    date.today() answers) and the value, and either returns or raises. *)
Definition Validator : Type := Z → Value → result unit.

(** The keyword arguments that carry meaning for storage, validation and
    deletion.  verbose_name, related_name, related_query_name and db_index
    only name reverse accessors, label forms or add an index, and are
    dropped. *)
Inductive Kwarg : Type :=
  | primary_key (b : bool)
  | max_length (n : nat)
  | max_digits (n : nat)
  | decimal_places (n : nat)
  | unique (b : bool)
  | null (b : bool)
  | blank (b : bool)
  | default (v : Value)
  | choices (c : list (string * string))
  | validators (vs : list Validator)
  | on_delete (h : OnDelete)
  | help_text (s : string).

Record Field : Type := mkField {
  ftype : FieldType;
  name : string;
  kwargs : list Kwarg
}.

(** ** Validators

    django.core.validators: a limit validator raises when
    [compare(value, limit_value)] holds; [MinValueValidator.compare] is
    [a < b] and [MaxValueValidator.compare] is [a > b]. *)

Definition as_number (v : Value) : option Qc :=
  match v with
  | VNum q => Some q
  | VInt z => Some (Qc_of_Z z)
  | _ => None
  end.

Definition MinValueValidator (limit_value : Qc) : Validator := λ _ value,
  match as_number value with
  | Some a =>
      if decide (a < limit_value)%Qc then Err (ValidationError "min_value")
      else Ok ()
  | None => Err TypeError
  end.

Definition MaxValueValidator (limit_value : Qc) : Validator := λ _ value,
  match as_number value with
  | Some a =>
      if decide (limit_value < a)%Qc then Err (ValidationError "max_value")
      else Ok ()
  | None => Err TypeError
  end.

(** Modelled from the spec: common/validators.py, which defines this
    validator, is missing; invoice.py and sales.py only import and use
    it.  The spec says of the fields that carry this validator that the
    date "must not be future", that dates are "constrained to not be in
    the future" and that "a future date is rejected": the validator
    raises exactly when the value is later than the current day. *)
Definition date_is_present_or_past : Validator := λ today value,
  match value with
  | VDate d =>
      if decide (today < d) then Err (ValidationError "invalid") else Ok ()
  | _ => Err TypeError
  end.

(** ** erp/models/invoice.py *)

Module invoice.

Definition FiscalPosition_fields : list Field := [
  mkField CharField "name" [max_length 50; unique true];
  mkField SlugField "code" [max_length 15; default (VStr ""); blank true;
    help_text "Some local official electronic systems handle specific codes."]
].

Definition CompanyInvoice_fields : list Field := [
  mkField (OneToOneField Company) "persons_company" [on_delete CASCADE];
  mkField CharField "legal_name" [max_length 300];
  mkField DateField "initiated_activities" [blank true; null true;
    validators [date_is_present_or_past]];
  mkField (ForeignKey FiscalPosition) "fiscal_position" [on_delete PROTECT;
    blank true; null true;
    help_text "Certain countries require a fiscal position for its taxpayers."];
  mkField (ForeignKey PhysicalAddress) "fiscal_address" [on_delete CASCADE;
    blank true; null true];
  mkField (ForeignKey Account) "default_invoice_debit_account"
    [on_delete PROTECT; null true; blank true];
  mkField (ForeignKey Account) "default_invoice_credit_account"
    [on_delete PROTECT; null true; blank true]
].

Definition ContactInvoice_fields : list Field := [
  mkField (OneToOneField Contact) "contact_contact" [on_delete CASCADE];
  mkField CharField "legal_name" [max_length 300];
  mkField (ForeignKey FiscalPosition) "fiscal_position" [on_delete PROTECT;
    help_text "Certain countries require a fiscal position for its taxpayers."];
  mkField (ForeignKey PhysicalAddress) "fiscal_address" [on_delete CASCADE]
].

Definition VAT_fields : list Field := [
  mkField CharField "name" [max_length 15; unique true;
    help_text "i.e. 8% US"];
  mkField SlugField "code" [max_length 15; default (VStr ""); blank true;
    help_text "Some local official electronic systems handle specific codes."];
  mkField DecimalField "tax" [max_digits 5; decimal_places 2;
    help_text "A value between 0.00 and 1.00";
    validators [MinValueValidator 0; MaxValueValidator 1]]
].

Definition Product_fields : list Field := [
  mkField (ForeignKey CompanyInvoice) "invoice_company" [on_delete PROTECT];
  mkField CharField "name" [max_length 150;
    help_text "It could also be a service."];
  mkField DecimalField "current_price" [max_digits 12; decimal_places 2;
    blank true; null true; validators [MinValueValidator 0]];
  mkField (ForeignKey VAT) "vat" [on_delete PROTECT]
].

Definition Product_unique_together : list (list string) :=
  [["invoice_company"; "name"]].

Definition InvoiceLine_fields : list Field := [
  mkField AutoField "id" [primary_key true];
  mkField (ForeignKey Product) "product" [on_delete PROTECT];
  mkField DecimalField "price_sold" [max_digits 12; decimal_places 2;
    blank true; null true; validators [MinValueValidator 0]];
  mkField DecimalField "discount" [max_digits 5; decimal_places 2;
    default (VNum 0); blank true;
    help_text "A number between 0.00 and 1.00";
    validators [MinValueValidator 0; MaxValueValidator 1]];
  mkField PositiveIntegerField "quantity" [default (VInt 1)];
  mkField CharField "description" [max_length 300; default (VStr "");
    blank true]
].

Definition INVOICETYPE_CLASS_BILL := "B".
Definition INVOICETYPE_CLASS_DEBIT := "D".
Definition INVOICETYPE_CLASS_CREDIT := "C".
Definition INVOICETYPE_CLASSES : list (string * string) := [
  (INVOICETYPE_CLASS_BILL, "Bill");
  (INVOICETYPE_CLASS_DEBIT, "Debit");
  (INVOICETYPE_CLASS_CREDIT, "Credit")
].

Definition InvoiceType_fields : list Field := [
  mkField CharField "name" [max_length 150];
  mkField CharField "invoice_type_class" [max_length 1;
    choices INVOICETYPE_CLASSES];
  mkField SlugField "code" [max_length 15; default (VStr ""); blank true;
    help_text "Some local official electronic systems handle specific codes."]
].

Definition INVOICE_STATUSTYPE_DRAFT := "D".
Definition INVOICE_STATUSTYPE_ACCEPTED := "A".
Definition INVOICE_STATUSTYPE_AUTHORIZED := "T".
Definition INVOICE_STATUSTYPE_CANCELED := "C".
Definition INVOICE_STATUS_TYPES : list (string * string) := [
  (INVOICE_STATUSTYPE_DRAFT, "Draft");
  (INVOICE_STATUSTYPE_ACCEPTED, "Accepted");
  (INVOICE_STATUSTYPE_AUTHORIZED, "Authorized");
  (INVOICE_STATUSTYPE_CANCELED, "Canceled")
].

Definition Invoice_fields : list Field := [
  mkField AutoField "id" [primary_key true];
  mkField (ForeignKey CompanyInvoice) "invoice_company" [on_delete PROTECT];
  mkField (ForeignKey ContactInvoice) "invoice_contact" [on_delete PROTECT];
  mkField (ForeignKey Invoice) "related_invoice" [on_delete PROTECT;
    blank true; null true];
  mkField BigIntegerField "number" [default (VInt 0); blank true];
  mkField (ManyToManyField InvoiceLine) "invoice_lines" [blank true];
  mkField (ForeignKey InvoiceType) "invoice_type" [on_delete PROTECT;
    blank true; null true];
  mkField DateField "invoice_date" [help_text "Not necessarily today.";
    validators [date_is_present_or_past]];
  mkField CharField "status" [max_length 1; choices INVOICE_STATUS_TYPES;
    default (VStr INVOICE_STATUSTYPE_DRAFT)];
  mkField DecimalField "subtotal" [max_digits 12; decimal_places 2;
    default (VNum 0); help_text "Total without taxes."];
  mkField DecimalField "total" [max_digits 12; decimal_places 2;
    default (VNum 0); help_text "Subtotal plus taxes."];
  mkField TextField "notes" [blank true; default (VStr "")];
  mkField (ForeignKey Transaction) "transaction" [on_delete PROTECT;
    blank true; null true]
].

Definition FiscalPositionHasInvoiceTypeAllowed_fields : list Field := [
  mkField (ForeignKey FiscalPosition) "fiscal_position_issuer"
    [on_delete PROTECT];
  mkField (ForeignKey InvoiceType) "invoice_type" [on_delete PROTECT];
  mkField (ForeignKey FiscalPosition) "fiscal_position_receiver"
    [on_delete PROTECT]
].

End invoice.

(** ** erp/models/invoice_ar.py *)

Module invoice_ar.

Definition ID_TYPE_DNI := "D".
Definition ID_TYPE_CUIT := "T".
Definition ID_TYPE_CUIL := "L".
Definition ID_TYPES : list (string * string) := [
  (ID_TYPE_DNI, "DNI"); (ID_TYPE_CUIT, "CUIT"); (ID_TYPE_CUIL, "CUIL")
].

Definition ContactInvoiceAR_fields : list Field := [
  mkField (OneToOneField ContactInvoice) "invoice_contact"
    [on_delete CASCADE];
  mkField CharField "id_type" [max_length 1; choices ID_TYPES; blank true;
    null true];
  mkField CharField "id_number" [max_length 14; default (VStr "");
    blank true]
].

Definition CompanyInvoiceAR_fields : list Field := [
  mkField (OneToOneField CompanyInvoice) "invoice_company"
    [on_delete CASCADE];
  mkField CharField "cuit" [max_length 14; default (VStr ""); blank true;
    help_text "Clave Única de Identificación Tributaria means Unique Code of Tributary Identification. Everybody who isn't an employee under somebody's payroll has one. Even companies, NGOs, Fundations, etc."];
  mkField CharField "iibb" [max_length 15; default (VStr ""); blank true;
    help_text "Ingresos Brutos means gross revenue. It is a unique code given by fiscal regulators of provinces'."];
  mkField TextField "key" [default (VStr ""); blank true];
  mkField TextField "cert" [default (VStr ""); blank true]
].

Definition WebServiceSession_fields : list Field := [
  mkField (ForeignKey CompanyInvoiceAR) "invoicear_company"
    [on_delete PROTECT];
  mkField CharField "begin" [max_length 50];
  mkField CharField "generation" [max_length 50];
  mkField CharField "expiration" [max_length 50];
  mkField TextField "token" [];
  mkField TextField "sign" []
].

Definition POINTOFSALE_TYPE_CONTROLADORFISCAL := "C".
Definition POINTOFSALE_TYPE_FACTUWEB := "F".
Definition POINTOFSALE_TYPE_WEBSERVICE := "W".
Definition POINTOFSALE_TYPE_ENLINEA := "L".
Definition POINTOFSALE_TYPES : list (string * string) := [
  (POINTOFSALE_TYPE_CONTROLADORFISCAL, "Fiscal Controller");
  (POINTOFSALE_TYPE_FACTUWEB, "Pre-printed");
  (POINTOFSALE_TYPE_WEBSERVICE, "Webservice");
  (POINTOFSALE_TYPE_ENLINEA, "Online")
].

Definition PointOfSaleAR_fields : list Field := [
  mkField (ForeignKey CompanyInvoiceAR) "invoicear_company"
    [on_delete PROTECT];
  mkField PositiveSmallIntegerField "afip_id" [];
  mkField CharField "fantasy_name" [max_length 150];
  mkField CharField "point_of_sale_type" [max_length 1;
    choices POINTOFSALE_TYPES; default (VStr POINTOFSALE_TYPE_WEBSERVICE)];
  mkField (ForeignKey PhysicalAddress) "fiscal_address" [on_delete PROTECT];
  mkField BooleanField "is_inactive" [default (VBool false)]
].

Definition PointOfSaleAR_unique_together : list (list string) :=
  [["invoicear_company"; "afip_id"]].

Definition ConceptType_fields : list Field := [
  mkField CharField "name" [max_length 50; unique true];
  mkField SlugField "code" [max_length 15; unique true]
].

(** class InvoiceAR(Invoice): the fields the subclass adds. *)
Definition InvoiceAR_fields : list Field := [
  mkField (ForeignKey CompanyInvoiceAR) "invoicear_company"
    [on_delete PROTECT];
  mkField (ForeignKey ContactInvoiceAR) "invoicear_contact"
    [on_delete PROTECT];
  mkField (ForeignKey PointOfSaleAR) "point_of_sale_ar" [on_delete PROTECT];
  mkField DateField "due_date" [];
  mkField DateField "service_start" [blank true; null true];
  mkField DateField "service_end" [blank true; null true];
  mkField (ForeignKey ConceptType) "concept_type" [on_delete PROTECT];
  mkField DecimalField "vat_total" [max_digits 15; decimal_places 2;
    default (VNum 0)];
  mkField (ManyToManyField InvoiceARHasVATSubtotal) "vat_subtotals"
    [blank true];
  mkField CharField "cae" [max_length 12; default (VStr ""); blank true];
  mkField DateField "cae_expires" [blank true; null true]
].

Definition InvoiceARHasVATSubtotal_fields : list Field := [
  mkField AutoField "id" [primary_key true];
  mkField (ForeignKey VAT) "vat" [on_delete PROTECT];
  mkField DecimalField "subtotal" [max_digits 15; decimal_places 2;
    default (VNum 0)]
].

End invoice_ar.

(** ** erp/models/sales.py *)

Module sales.

Definition ProductCategory_fields : list Field := [
  mkField (ForeignKey Company) "persons_company" [on_delete PROTECT];
  mkField CharField "name" [max_length 50];
  mkField TextField "description" [max_length 200; blank true;
    default (VStr "")]
].

Definition ProductCategory_unique_together : list (list string) :=
  [["persons_company"; "name"]].

Definition ProductSales_fields : list Field := [
  mkField (OneToOneField Product) "invoice_product" [];
  mkField TextField "description" [max_length 500; blank true;
    default (VStr "")];
  mkField (ManyToManyField ProductCategory) "categories" [blank true]
].

Definition QuotationLine_fields : list Field := [
  mkField (ForeignKey Product) "product" [on_delete PROTECT];
  mkField DecimalField "product_price_override" [max_digits 12;
    decimal_places 2; blank true; null true];
  mkField (ForeignKey VAT) "product_vat_override" [on_delete PROTECT;
    blank true; null true];
  mkField FloatField "product_discount" [default (VNum 0); blank true;
    help_text "A number between 0.00 and 1.00"];
  mkField PositiveIntegerField "quantity" [default (VInt 1)]
].

Definition QUOTATION_STATUSTYPE_DRAFT := "D".
Definition QUOTATION_STATUSTYPE_SAVED := "SA".
Definition QUOTATION_STATUSTYPE_SOLD := "SO".
Definition QUOTATION_STATUSTYPE_CANCELED := "C".
Definition QUOTATION_STATUS_TYPES : list (string * string) := [
  (QUOTATION_STATUSTYPE_DRAFT, "Draft");
  (QUOTATION_STATUSTYPE_SAVED, "Saved");
  (QUOTATION_STATUSTYPE_SOLD, "Sold");
  (QUOTATION_STATUSTYPE_CANCELED, "Canceled")
].

Definition Quotation_fields : list Field := [
  mkField (ForeignKey Company) "persons_company" [on_delete PROTECT];
  mkField (ManyToManyField Contact) "contacts" [];
  mkField (ManyToManyField QuotationLine) "quotation_lines" [];
  mkField DateField "quotation_date" [help_text "Not necessarily today.";
    validators [date_is_present_or_past]];
  mkField DecimalField "subtotal" [max_digits 12; decimal_places 2;
    default (VNum 0); help_text "Total without taxes."];
  mkField DecimalField "total" [max_digits 12; decimal_places 2;
    default (VNum 0); help_text "Subtotal plus taxes."];
  mkField TextField "notes" [blank true; default (VStr "")];
  mkField CharField "status" [max_length 2; choices QUOTATION_STATUS_TYPES;
    default (VStr QUOTATION_STATUSTYPE_DRAFT)]
].

Definition SaleLine_fields : list Field := [
  mkField (ForeignKey ProductSales) "product" [on_delete PROTECT];
  mkField DecimalField "product_price_override" [max_digits 12;
    decimal_places 2; blank true; null true];
  mkField (ForeignKey VAT) "product_vat_override" [on_delete PROTECT;
    blank true; null true];
  mkField FloatField "product_discount" [default (VNum 0); blank true;
    help_text "A number between 0.00 and 1.00"];
  mkField PositiveIntegerField "quantity" [default (VInt 1)]
].

Definition SALE_STATUSTYPE_DRAFT := "D".
Definition SALE_STATUSTYPE_SAVED := "S".
Definition SALE_STATUSTYPE_INVOICED := "I".
Definition SALE_STATUSTYPE_CANCELED := "C".
Definition SALE_STATUS_TYPES : list (string * string) := [
  (SALE_STATUSTYPE_DRAFT, "Draft");
  (SALE_STATUSTYPE_SAVED, "Saved");
  (SALE_STATUSTYPE_INVOICED, "Invoiced");
  (SALE_STATUSTYPE_CANCELED, "Canceled")
].

Definition Sale_fields : list Field := [
  mkField (OneToOneField Quotation) "quotation" [blank true; null true];
  mkField (ForeignKey Company) "persons_company" [on_delete PROTECT];
  mkField (ManyToManyField Contact) "contacts" [];
  mkField (ManyToManyField SaleLine) "sale_lines" [];
  mkField DateField "sale_date" [help_text "Not necessarily today.";
    validators [date_is_present_or_past]];
  mkField DecimalField "subtotal" [max_digits 12; decimal_places 2;
    default (VNum 0); help_text "Total without taxes."];
  mkField DecimalField "total" [max_digits 12; decimal_places 2;
    default (VNum 0); help_text "Subtotal plus taxes."];
  mkField TextField "notes" [blank true; default (VStr "")];
  mkField CharField "status" [max_length 1; choices SALE_STATUS_TYPES;
    default (VStr SALE_STATUSTYPE_DRAFT)]
].

End sales.

(** ** Reading a declaration *)

Fixpoint kwarg {A} (sel : Kwarg → option A) (ks : list Kwarg) : option A :=
  match ks with
  | [] => None
  | k :: ks => match sel k with Some a => Some a | None => kwarg sel ks end
  end.

Definition Field_null (f : Field) : bool :=
  from_option id false
    (kwarg (λ k, match k with null b => Some b | _ => None end) (kwargs f)).
Definition Field_blank (f : Field) : bool :=
  from_option id false
    (kwarg (λ k, match k with blank b => Some b | _ => None end) (kwargs f)).
Definition Field_max_length (f : Field) : option nat :=
  kwarg (λ k, match k with max_length n => Some n | _ => None end) (kwargs f).
Definition Field_default (f : Field) : option Value :=
  kwarg (λ k, match k with default v => Some v | _ => None end) (kwargs f).
Definition Field_choices (f : Field) : option (list (string * string)) :=
  kwarg (λ k, match k with choices c => Some c | _ => None end) (kwargs f).
Definition Field_validators (f : Field) : list Validator :=
  from_option id []
    (kwarg (λ k, match k with validators vs => Some vs | _ => None end)
       (kwargs f)).
Definition Field_on_delete (f : Field) : option OnDelete :=
  kwarg (λ k, match k with on_delete h => Some h | _ => None end) (kwargs f).
Definition Field_help_text (f : Field) : option string :=
  kwarg (λ k, match k with help_text s => Some s | _ => None end) (kwargs f).

(** A OneToOneField is a ForeignKey with unique=True. *)
Definition Field_unique (f : Field) : bool :=
  match ftype f with
  | OneToOneField _ => true
  | _ =>
      from_option id false
        (kwarg (λ k, match k with unique b => Some b | _ => None end)
           (kwargs f))
  end.

Definition remote_model (f : Field) : option Model :=
  match ftype f with
  | ForeignKey to | OneToOneField to => Some to
  | _ => None
  end.

Definition is_many_to_many (f : Field) : bool :=
  match ftype f with ManyToManyField _ => true | _ => false end.

Definition is_auto (f : Field) : bool :=
  match ftype f with AutoField => true | _ => false end.

(** sales.py leaves on_delete out of its two OneToOneFields, which the
    framework release it is written for (the one that still has
    ugettext_lazy) reads as CASCADE. *)
Definition handler (f : Field) : OnDelete :=
  from_option id CASCADE (Field_on_delete f).

(** ** The classes *)

Definition local_fields (m : Model) : list Field :=
  match m with
  | Company | Contact | PhysicalAddress | Account | Transaction => []
  | FiscalPosition => invoice.FiscalPosition_fields
  | CompanyInvoice => invoice.CompanyInvoice_fields
  | ContactInvoice => invoice.ContactInvoice_fields
  | VAT => invoice.VAT_fields
  | Product => invoice.Product_fields
  | InvoiceLine => invoice.InvoiceLine_fields
  | InvoiceType => invoice.InvoiceType_fields
  | Invoice => invoice.Invoice_fields
  | FiscalPositionHasInvoiceTypeAllowed =>
      invoice.FiscalPositionHasInvoiceTypeAllowed_fields
  | ContactInvoiceAR => invoice_ar.ContactInvoiceAR_fields
  | CompanyInvoiceAR => invoice_ar.CompanyInvoiceAR_fields
  | WebServiceSession => invoice_ar.WebServiceSession_fields
  | PointOfSaleAR => invoice_ar.PointOfSaleAR_fields
  | ConceptType => invoice_ar.ConceptType_fields
  | InvoiceAR => invoice_ar.InvoiceAR_fields
  | InvoiceARHasVATSubtotal => invoice_ar.InvoiceARHasVATSubtotal_fields
  | ProductCategory => sales.ProductCategory_fields
  | ProductSales => sales.ProductSales_fields
  | QuotationLine => sales.QuotationLine_fields
  | Quotation => sales.Quotation_fields
  | SaleLine => sales.SaleLine_fields
  | Sale => sales.Sale_fields
  end.

(** The base class of a model that subclasses another model. *)
Definition base (m : Model) : option Model :=
  match m with InvoiceAR => Some Invoice | _ => None end.

(** Meta.unique_together *)
Definition unique_together (m : Model) : list (list string) :=
  match m with
  | Product => invoice.Product_unique_together
  | PointOfSaleAR => invoice_ar.PointOfSaleAR_unique_together
  | ProductCategory => sales.ProductCategory_unique_together
  | _ => []
  end.

(** _meta.fields without the many-to-many fields and without the
    automatic key: the inherited fields first, then the class's own.  The
    key of a row is kept beside its attributes, not among them. *)
Definition fields (m : Model) : list Field :=
  filter (λ f, is_many_to_many f = false ∧ is_auto f = false)
    (from_option local_fields [] (base m) ++ local_fields m)%list.

Definition get_field (m : Model) (n : string) : option Field :=
  list_find (λ f, name f = n) (fields m) ≫= λ p, Some p.2.

Definition models : list Model := [
  Company; Contact; PhysicalAddress; Account; Transaction;
  FiscalPosition; CompanyInvoice; ContactInvoice; VAT; Product;
  InvoiceLine; InvoiceType; Invoice; FiscalPositionHasInvoiceTypeAllowed;
  ContactInvoiceAR; CompanyInvoiceAR; WebServiceSession; PointOfSaleAR;
  ConceptType; InvoiceAR; InvoiceARHasVATSubtotal;
  ProductCategory; ProductSales; QuotationLine; Quotation; SaleLine; Sale
].

(** Every ForeignKey and OneToOneField of the three files, with the model
    that declares or inherits it. *)
Definition relations : list (Model * Field) :=
  m ← models; f ← fields m;
  if remote_model f is Some _ then [(m, f)] else [].

(** ** Field validation (django.db.models.fields.Field) *)

(** Field.empty_values is (None, '', [], (), {}): of the values modelled,
    None and the empty string. *)
Definition empty_values (v : Value) : bool :=
  match v with
  | VNone => true
  | VStr s => bool_decide (s = "")
  | _ => false
  end.

(** to_python.  A value of the field's own Python type passes, an int
    given to a decimal or float field is converted, None passes through;
    anything else is answered with code 'invalid'. *)
Definition to_python (t : FieldType) (v : Value) : result Value :=
  match v with
  | VNone => Ok VNone
  | VStr _ =>
      match t with
      | CharField | SlugField | TextField => Ok v
      | _ => Err (ValidationError "invalid")
      end
  | VInt z =>
      match t with
      | DecimalField | FloatField => Ok (VNum (Qc_of_Z z))
      | AutoField | PositiveIntegerField | PositiveSmallIntegerField
      | BigIntegerField | ForeignKey _ | OneToOneField _ => Ok v
      | _ => Err (ValidationError "invalid")
      end
  | VNum _ =>
      match t with
      | DecimalField | FloatField => Ok v
      | _ => Err (ValidationError "invalid")
      end
  | VDate _ =>
      match t with
      | DateField => Ok v
      | _ => Err (ValidationError "invalid")
      end
  | VBool _ =>
      match t with
      | BooleanField => Ok v
      | _ => Err (ValidationError "invalid")
      end
  end.

Definition in_choices (cs : list (string * string)) (v : Value) : bool :=
  bool_decide (Exists (λ c, v = VStr c.1) cs).

(** Field.validate: the choices test, then null, then blank. *)
Definition validate (f : Field) (value : Value) : result unit :=
  match Field_choices f with
  | Some cs =>
      if negb (empty_values value) then
        if in_choices cs value then Ok ()
        else Err (ValidationError "invalid_choice")
      else if bool_decide (value = VNone) && negb (Field_null f) then
        Err (ValidationError "null")
      else if negb (Field_blank f) && empty_values value then
        Err (ValidationError "blank")
      else Ok ()
  | None =>
      if bool_decide (value = VNone) && negb (Field_null f) then
        Err (ValidationError "null")
      else if negb (Field_blank f) && empty_values value then
        Err (ValidationError "blank")
      else Ok ()
  end.

(** len of a str: the number of its code points.  The text of a VStr is
    kept in UTF-8, where a code point is one leading byte followed by
    continuation bytes (10xxxxxx): len counts the bytes that are not
    continuation bytes. *)
Definition continuation_byte (c : ascii) : bool :=
  match c with Ascii _ _ _ _ _ _ b6 b7 => b7 && negb b6 end.

Fixpoint len (s : string) : nat :=
  match s with
  | EmptyString => O
  | String c s => if continuation_byte c then len s else S (len s)
  end.

(** The validators a field type brings by itself: a CharField (and so a
    SlugField) appends MaxLengthValidator(max_length), a SlugField starts
    with validate_slug.  MaxLengthValidator compares len(value) with the
    limit. *)
Definition MaxLengthValidator (limit_value : nat) : Validator := λ _ value,
  match value with
  | VStr s =>
      if decide (limit_value < len s)%nat
      then Err (ValidationError "max_length") else Ok ()
  | _ => Err TypeError
  end.

Definition slug_char (c : ascii) : bool :=
  let n := nat_of_ascii c in
  bool_decide (n = 45 ∨ n = 95 ∨ 48 ≤ n ≤ 57 ∨ 65 ≤ n ≤ 90 ∨ 97 ≤ n ≤ 122)%nat.

Definition validate_slug : Validator := λ _ value,
  match value with
  | VStr s =>
      if forallb slug_char (list_ascii_of_string s) && negb (bool_decide (s = ""))
      then Ok () else Err (ValidationError "invalid")
  | _ => Err TypeError
  end.

Definition Field_all_validators (f : Field) : list Validator :=
  let max_len := from_option (λ n, [MaxLengthValidator n]) [] (Field_max_length f) in
  match ftype f with
  | CharField => Field_validators f ++ max_len
  | SlugField => validate_slug :: Field_validators f ++ max_len
  | _ => Field_validators f
  end%list.

(** Field.run_validators: nothing runs on an empty value; otherwise every
    validator must return. *)
Definition run_validators (today : Z) (f : Field) (value : Value)
    : result unit :=
  if empty_values value then Ok ()
  else foldr (λ v rest, v today value ;; rest) (Ok ()) (Field_all_validators f).

(** Field.clean *)
Definition clean (today : Z) (f : Field) (value : Value) : result Value :=
  value ← to_python (ftype f) value;
  validate f value;;
  run_validators today f value;;
  mret value.

(** Model._meta.get_field(name).clean(value, instance) *)
Definition clean_field (today : Z) (m : Model) (n : string) (value : Value)
    : result Value :=
  match get_field m n with
  | Some f => clean today f value
  | None => Err FieldDoesNotExist
  end.

(** ** Instances *)

Abbreviation Attrs := (gmap string Value).

Definition column (a : Attrs) (n : string) : Value :=
  from_option id VNone (a !! n).

(** Model.clean_fields: a blank=True field holding an empty value is
    skipped, every other field is cleaned; the answer is the list of the
    fields in error. *)
Definition clean_fields (today : Z) (m : Model) (inst : Attrs)
    : list (string * Error) :=
  f ← fields m;
  let raw_value := column inst (name f) in
  if Field_blank f && empty_values raw_value then []
  else match clean today f raw_value with
       | Ok _ => []
       | Err e => [(name f, e)]
       end.

(** Field.get_default: the declared default, else None for a field type
    that does not allow empty strings or that is nullable, else ''. *)
Definition empty_strings_allowed (t : FieldType) : bool :=
  match t with
  | CharField | SlugField | TextField => true
  | _ => false
  end.

Definition get_default (f : Field) : Value :=
  match Field_default f with
  | Some v => v
  | None =>
      if negb (empty_strings_allowed (ftype f)) || Field_null f then VNone
      else VStr ""
  end.

(** Model.__init__ with keyword arguments: every field takes the keyword given for it,
    or its default. *)
Definition init (m : Model) (kw : Attrs) : Attrs :=
  list_to_map
    ((λ f, (name f, from_option id (get_default f) (kw !! name f)))
       <$> fields m).

(** get_FOO_display: the label of the stored choice. *)
Definition get_display (m : Model) (n : string) (inst : Attrs)
    : option string :=
  f ← get_field m n;
  cs ← Field_choices f;
  p ← list_find (λ c, VStr c.1 = column inst n) cs;
  Some p.2.2.

(** ** The database

    A table row is found by its model and primary key and holds the
    attributes of the instance.  (A subclass instance is kept as one row
    under the subclass, with the inherited columns in it.) *)

Abbreviation Key := (Model * Z)%type.
Abbreviation DB := (gmap Key Attrs).

(** The key the next INSERT into a table gets. *)
Definition next_pk (m : Model) (db : DB) : Z :=
  1 + map_fold (λ (k : Key) _ top, if decide (k.1 = m) then top `max` k.2 else top)
        0 db.

(** NOT NULL: a column declared without null=True refuses NULL. *)
Definition not_null_violated (m : Model) (obj : Attrs) : bool :=
  existsb
    (λ f, negb (Field_null f) && bool_decide (column obj (name f) = VNone))
    (fields m).

(** UNIQUE: two rows collide on a set of columns when they agree on every
    one of them and none is NULL.  Stored values are compared as they
    are: for well-typed rows this is the comparison the database makes
    on an integer, date or (binary collated) text column. *)
Definition same_on (cols : list string) (a b : Attrs) : Prop :=
  Forall (λ c, column a c ≠ VNone ∧ column a c = column b c) cols.

Definition unique_constraints (m : Model) : list (list string) :=
  (((λ f, [name f]) <$> filter (λ f, Field_unique f = true) (fields m))
   ++ unique_together m)%list.

Definition unique_violated (m : Model) (obj : Attrs) (db : DB) : Prop :=
  Exists
    (λ cols, map_Exists (λ (k : Key) row, k.1 = m ∧ same_on cols obj row) db)
    (unique_constraints m).

#[global] Instance unique_violated_dec m obj db :
  Decision (unique_violated m obj db).
Proof. unfold unique_violated, same_on. apply _. Defined.

(** The row a relation column points at. *)
Definition target_of (f : Field) (row : Attrs) : option Key :=
  match remote_model f, column row (name f) with
  | Some to, VInt pk => Some (to, pk)
  | _, _ => None
  end.

(** FOREIGN KEY: a relation column that is not NULL points at a stored
    row. *)
Definition foreign_key_violated (m : Model) (obj : Attrs) (db : DB) : bool :=
  existsb
    (λ f, from_option (λ k, bool_decide (db !! k = None)) false
            (target_of f obj))
    (fields m).

(** ** Attributes that are stored unchanged

    Field.get_db_prep_save hands a value of the column's own Python type
    to the database as it is when it lies in the range of the column.
    The integer ranges are those the framework documents as safe on
    every backend; a Decimal must fit max_digits once it is rounded to
    decimal_places; a CharField holds at most max_length characters; a
    date lies between date.min and date.max.  None stands for NULL. *)

Definition Field_max_digits (f : Field) : option nat :=
  kwarg (λ k, match k with max_digits n => Some n | _ => None end) (kwargs f).
Definition Field_decimal_places (f : Field) : option nat :=
  kwarg (λ k, match k with decimal_places n => Some n | _ => None end)
    (kwargs f).

Definition in_range (lo hi z : Z) : bool := bool_decide (lo ≤ z ≤ hi).

(** The largest magnitude a DecimalField stores: max_digits minus
    decimal_places digits before the point. *)
Definition decimal_fits (f : Field) (q : Qc) : bool :=
  match Field_max_digits f, Field_decimal_places f with
  | Some digits, Some places =>
      let top := 10 ^ (Z.of_nat digits - Z.of_nat places) - 1 in
      bool_decide (Qc_of_Z (- top) ≤ q)%Qc && bool_decide (q ≤ Qc_of_Z top)%Qc
  | _, _ => true
  end.

Definition fits (f : Field) (v : Value) : bool :=
  match v with
  | VNone => true
  | VStr s =>
      match ftype f with
      | CharField | SlugField =>
          from_option (λ n, bool_decide (len s ≤ n)%nat) true
            (Field_max_length f)
      | TextField => true
      | _ => false
      end
  | VInt z =>
      match ftype f with
      | PositiveSmallIntegerField => in_range 0 32767 z
      | PositiveIntegerField => in_range 0 2147483647 z
      | BigIntegerField =>
          in_range (-9223372036854775808) 9223372036854775807 z
      | ForeignKey _ | OneToOneField _ => in_range (-2147483648) 2147483647 z
      | DecimalField => decimal_fits f (Qc_of_Z z)
      | FloatField => true
      | _ => false
      end
  | VNum q =>
      match ftype f with
      | DecimalField => decimal_fits f q
      | FloatField => true
      | _ => false
      end
  | VDate d =>
      match ftype f with
      | DateField => in_range 1 3652059 d
      | _ => false
      end
  | VBool _ =>
      match ftype f with
      | BooleanField => true
      | _ => false
      end
  end.

(** Every attribute is named after a column of the model and fits it. *)
Definition well_typed (m : Model) (obj : Attrs) : bool :=
  forallb
    (λ nv : string * Value,
       from_option (λ f, fits f nv.2) false (get_field m nv.1))
    (map_to_list obj).

Definition well_typed_db (db : DB) : bool :=
  forallb (λ kr : Key * Attrs, well_typed kr.1.1 kr.2) (map_to_list db).

(** Manager.create: instantiate, then INSERT.  Of the constraints of the
    table, NOT NULL, FOREIGN KEY and UNIQUE are checked; the database
    answers a violated one with IntegrityError and stays as it was.  The
    attributes are stored as given, which is what the framework does
    with well-typed ones; a keyword that names no field is not looked
    at here, where Model.__init__ raises TypeError. *)
Definition create (m : Model) (kw : Attrs) (db : DB) : result Z * DB :=
  let obj := init m kw in
  if not_null_violated m obj
     || foreign_key_violated m obj db
     || bool_decide (unique_violated m obj db)
  then (Err IntegrityError, db)
  else let pk := next_pk m db in (Ok pk, <[(m, pk) := obj]> db).

(** ** Deletion (django.db.models.deletion) *)

(** [row] of model [m] points, through a relation of [rels] whose handler
    is [h], at one of [objs]. *)
Definition references (rels : list (Model * Field)) (h : OnDelete)
    (objs : gset Key) (m : Model) (row : Attrs) : bool :=
  existsb
    (λ r : Model * Field,
       bool_decide (r.1 = m) && bool_decide (handler r.2 = h)
       && from_option (λ k, bool_decide (k ∈ objs)) false (target_of r.2 row))
    rels.

(** Collector.related_objects, for the relations handled by [h]. *)
Definition related_objects (rels : list (Model * Field)) (h : OnDelete)
    (objs : gset Key) (db : DB) : gset Key :=
  dom (filter (λ kr : Key * Attrs, references rels h objs kr.1.1 kr.2 = true) db).

(** Collector.collect.  PROTECT raises as soon as a protected relation
    has related objects; CASCADE collects them and goes on from those not
    seen before (Collector.add answers only the new ones, and collect
    returns when there is none).  One round treats the objects of a whole
    level; [fuel] bounds the number of rounds. *)
Fixpoint collect (rels : list (Model * Field)) (db : DB) (fuel : nat)
    (new_objs seen : gset Key) : result (gset Key) :=
  if decide (related_objects rels PROTECT new_objs db = ∅) then
    let sub_objs := related_objects rels CASCADE new_objs db ∖ seen in
    if decide (sub_objs = ∅) then Ok seen
    else match fuel with
         | O => Ok seen
         | S fuel => collect rels db fuel sub_objs (seen ∪ sub_objs)
         end
  else Err ProtectedError.

(** Model.delete: collect, then delete what was collected; the answer is
    the number of rows deleted.  When collect raises, nothing has been
    deleted yet.  (Rows of join tables and the parent row of an
    InvoiceAR are not kept in the database, so they are neither removed
    nor counted here.) *)
Definition delete (rels : list (Model * Field)) (k : Key) (db : DB)
    : result nat * DB :=
  match collect rels db (size db) {[k]} {[k]} with
  | Ok seen =>
      (Ok (size (filter (λ kr : Key * Attrs, kr.1 ∈ seen) db)),
       filter (λ kr : Key * Attrs, kr.1 ∉ seen) db)
  | Err e => (Err e, db)
  end.

(** ** Derived notions used by the properties *)

(** The choices of a model's status field. *)
Definition status_choices (m : Model) : list (string * string) :=
  from_option id [] (get_field m "status" ≫= Field_choices).

Definition is_one_to_one (f : Field) : bool :=
  match ftype f with OneToOneField _ => true | _ => false end.

Definition is_foreign_key (f : Field) : bool :=
  match ftype f with ForeignKey _ => true | _ => false end.

(** The two plain foreign keys declared with on_delete=models.CASCADE. *)
Definition cascading_foreign_keys : list (Model * string) :=
  [(CompanyInvoice, "fiscal_address"); (ContactInvoice, "fiscal_address")].

(** Every row of [db] that points at an object of [objs] does so through
    a cascading relation and belongs to [into]. *)
Definition referrers_in (rels : list (Model * Field)) (db : DB)
    (objs into : gset Key) : Prop :=
  ∀ k row f t,
    db !! k = Some row → (k.1, f) ∈ rels → target_of f row = Some t →
    t ∈ objs → handler f = CASCADE ∧ k ∈ into.

(** The models of the three files of which an instance is one row that no
    join row points at: those that declare no ManyToManyField, are the
    target of none, subclass no model and are subclassed by none. *)
Definition many_to_many_target (f : Field) : option Model :=
  match ftype f with ManyToManyField to => Some to | _ => None end.

Definition single_row (m : Model) : bool :=
  match local_fields m with [] => false | _ => true end
  && bool_decide (base m = None)
  && forallb (λ f, negb (is_many_to_many f)) (local_fields m)
  && forallb
       (λ m', negb (bool_decide (base m' = Some m))
              && forallb
                   (λ f, negb (bool_decide (many_to_many_target f = Some m)))
                   (local_fields m'))
       models.

(** ** Integrity of a database *)

(** Every stored row satisfies the NOT NULL constraints of its table,
    points only at stored rows, and collides with no other row on a
    unique constraint. *)
Definition consistent (db : DB) : Prop :=
  ∀ k row, db !! k = Some row →
    not_null_violated k.1 row = false
    ∧ foreign_key_violated k.1 row db = false
    ∧ ¬ unique_violated k.1 row (base.delete k db).

(** ** The __str__ methods *)

Inductive Exception : Type :=
  | AttributeError
  | ObjectDoesNotExist
  | NotAString.

Inductive outcome (A : Type) : Type :=
  | Returns (a : A)
  | Raises (e : Exception).
Arguments Returns {A} a.
Arguments Raises {A} e.

#[global] Instance outcome_ret : MRet outcome := λ A a, Returns a.
#[global] Instance outcome_bind : MBind outcome := λ A B k r,
  match r with Returns a => k a | Raises e => Raises e end.

(** self.<name> for a column that is not a relation.  A name that is no
    field of the class raises AttributeError (reverse accessors and the
    attributes of models.Model itself are not looked up). *)
Definition getattr (m : Model) (self : Attrs) (n : string) : outcome Value :=
  match get_field m n with
  | Some _ => Returns (column self n)
  | None => Raises AttributeError
  end.

(** self.<name> for a ForeignKey or OneToOneField: the stored row it
    points at; None for an empty nullable relation. *)
Definition related (db : DB) (m : Model) (self : Attrs) (n : string)
    : outcome (option (Key * Attrs)) :=
  match get_field m n ≫= λ f, pair f <$> remote_model f with
  | Some (f, to) =>
      match column self n with
      | VInt pk =>
          match db !! (to, pk) with
          | Some row => Returns (Some ((to, pk), row))
          | None => Raises ObjectDoesNotExist
          end
      | _ =>
          if Field_null f then Returns None else Raises ObjectDoesNotExist
      end
  | None => Raises AttributeError
  end.

(** What a __str__ may return: a str, anything else is a TypeError. *)
Definition return_str (v : Value) : outcome string :=
  match v with
  | VStr s => Returns s
  | _ => Raises NotAString
  end.

Section Str.
(** The __str__ of the two models of other applications that are
    printed here, and the text of a Decimal and of a date. *)
Variable Company__str__ Contact__str__ : Key → Attrs → outcome string.
Variable Decimal__str__ : Qc → string.
Variable date__str__ : Z → string.

(** str(value) of a builtin value. *)
Definition str (v : Value) : string :=
  match v with
  | VNone => "None"
  | VStr s => s
  | VInt z => pretty z
  | VNum q => Decimal__str__ q
  | VDate d => date__str__ d
  | VBool b => if b then "True" else "False"
  end.

(** str(obj) of a related object, given the __str__ of its class. *)
Definition str_related (__str__ : Key → Attrs → outcome string)
    (obj : option (Key * Attrs)) : outcome string :=
  match obj with
  | Some (k, row) => __str__ k row
  | None => Returns "None"
  end.

(** invoice.py *)

Definition FiscalPosition__str__ (self : Attrs) : outcome string :=
  getattr FiscalPosition self "name" ≫= return_str.

Definition CompanyInvoice__str__ (db : DB) (self : Attrs) : outcome string :=
  related db CompanyInvoice self "persons_company"
    ≫= str_related Company__str__.

Definition ContactInvoice__str__ (db : DB) (self : Attrs) : outcome string :=
  related db ContactInvoice self "contact_contact"
    ≫= str_related Contact__str__.

Definition VAT__str__ (self : Attrs) : outcome string :=
  getattr VAT self "name" ≫= return_str.

Definition Product__str__ (self : Attrs) : outcome string :=
  name ← getattr Product self "name"; mret (str name).

Definition InvoiceLine__str__ (db : DB) (self : Attrs) : outcome string :=
  product ← related db InvoiceLine self "product"
            ≫= str_related (λ _, Product__str__);
  quantity ← getattr InvoiceLine self "quantity";
  mret (product +:+ " x " +:+ str quantity).

Definition InvoiceType__str__ (self : Attrs) : outcome string :=
  getattr InvoiceType self "name" ≫= return_str.

Definition Invoice__str__ (db : DB) (self : Attrs) : outcome string :=
  invoice_company ← related db Invoice self "invoice_company"
                    ≫= str_related (λ _, CompanyInvoice__str__ db);
  number ← getattr Invoice self "number";
  mret (invoice_company +:+ " : " +:+ str number).

Definition FiscalPositionHasInvoiceTypeAllowed__str__ (db : DB) (self : Attrs)
    : outcome string :=
  issuer ← related db FiscalPositionHasInvoiceTypeAllowed self
             "fiscal_position_issuer"
           ≫= str_related (λ _, FiscalPosition__str__);
  invoice_type ← related db FiscalPositionHasInvoiceTypeAllowed self
                   "invoice_type"
                 ≫= str_related (λ _, InvoiceType__str__);
  receiver ← related db FiscalPositionHasInvoiceTypeAllowed self
               "fiscal_position_receiver"
             ≫= str_related (λ _, FiscalPosition__str__);
  mret (issuer +:+ "->" +:+ (invoice_type +:+ "->" +:+ receiver)).

(** invoice_ar.py *)

(** self.invoice_contact.contact_contact.name: an attribute of a model
    of another application, read from its row. *)
Definition ContactInvoiceAR__str__ (db : DB) (self : Attrs)
    : outcome string :=
  invoice_contact ← related db ContactInvoiceAR self "invoice_contact";
  match invoice_contact with
  | None => Raises AttributeError
  | Some (_, contact_invoice) =>
      contact ← related db ContactInvoice contact_invoice "contact_contact";
      match contact with
      | None => Raises AttributeError
      | Some (_, contact) =>
          match contact !! "name" with
          | Some v => return_str v
          | None => Raises AttributeError
          end
      end
  end.

Definition CompanyInvoiceAR__str__ (db : DB) (self : Attrs)
    : outcome string :=
  related db CompanyInvoiceAR self "invoice_company"
    ≫= str_related (λ _, CompanyInvoice__str__ db).

(** self.generation + "-" + self.expiration: both have to be str. *)
Definition WebServiceSession__str__ (self : Attrs) : outcome string :=
  generation ← getattr WebServiceSession self "generation" ≫= return_str;
  expiration ← getattr WebServiceSession self "expiration" ≫= return_str;
  mret (generation +:+ "-" +:+ expiration).

Definition PointOfSaleAR__str__ (db : DB) (self : Attrs) : outcome string :=
  afip_id ← getattr PointOfSaleAR self "afip_id";
  invoicear_company ← related db PointOfSaleAR self "invoicear_company"
                      ≫= str_related (λ _, CompanyInvoiceAR__str__ db);
  mret (str afip_id +:+ " @ " +:+ invoicear_company).

Definition ConceptType__str__ (self : Attrs) : outcome string :=
  getattr ConceptType self "name" ≫= return_str.

Definition InvoiceAR__str__ (self : Attrs) : outcome string :=
  number ← getattr InvoiceAR self "number"; mret (str number).

Definition InvoiceARHasVATSubtotal__str__ (db : DB) (self : Attrs)
    : outcome string :=
  vat ← related db InvoiceARHasVATSubtotal self "vat"
        ≫= str_related (λ _, VAT__str__);
  subtotal ← getattr InvoiceARHasVATSubtotal self "subtotal";
  mret (vat +:+ ":" +:+ str subtotal).

(** sales.py *)

Definition ProductCategory__str__ (self : Attrs) : outcome string :=
  name ← getattr ProductCategory self "name"; mret (str name).

(** return self.product, where the class has invoice_product,
    description and categories. *)
Definition ProductSales__str__ (self : Attrs) : outcome string :=
  getattr ProductSales self "product" ≫= return_str.

Definition QuotationLine__str__ (db : DB) (self : Attrs) : outcome string :=
  product ← related db QuotationLine self "product"
            ≫= str_related (λ _, Product__str__);
  quantity ← getattr QuotationLine self "quantity";
  mret (product +:+ " x " +:+ str quantity).

Definition Quotation__str__ (db : DB) (pk : Z) (self : Attrs)
    : outcome string :=
  persons_company ← related db Quotation self "persons_company"
                    ≫= str_related Company__str__;
  mret (persons_company +:+ " : " +:+ str (VInt pk)).

Definition SaleLine__str__ (db : DB) (self : Attrs) : outcome string :=
  product ← related db SaleLine self "product"
            ≫= str_related (λ _, ProductSales__str__);
  quantity ← getattr SaleLine self "quantity";
  mret (product +:+ " x " +:+ str quantity).

Definition Sale__str__ (db : DB) (pk : Z) (self : Attrs) : outcome string :=
  persons_company ← related db Sale self "persons_company"
                    ≫= str_related Company__str__;
  mret (persons_company +:+ " : " +:+ str (VInt pk)).

End Str.

(** ** Sample databases *)

(** A company with its invoicing extension and fiscal address, and one
    product taxed at a VAT rate. *)
Definition acme : DB :=
  {[ (Company, 1) := ∅;
     (PhysicalAddress, 1) := ∅;
     (CompanyInvoice, 1) :=
       {[ "persons_company" := VInt 1; "legal_name" := VStr "ACME";
          "fiscal_address" := VInt 1 ]} ]}.

Definition acme_shop : DB :=
  <[ (VAT, 1) := {[ "name" := VStr "21%"; "tax" := VNum (Q2Qc (21 # 100)) ]} ]>
  (<[ (Product, 1) :=
        {[ "invoice_company" := VInt 1; "name" := VStr "widget";
           "vat" := VInt 1 ]} ]> acme).

(** Three companies (two of them invoicing, both registered in
    Argentina), two contacts (one of them invoicing), one address, one
    fiscal position and one VAT rate. *)
Definition registry : DB :=
  {[ (Company, 1) := ∅; (Company, 2) := ∅; (Company, 3) := ∅;
     (Contact, 1) := ∅; (Contact, 2) := ∅;
     (PhysicalAddress, 1) := ∅;
     (FiscalPosition, 1) :=
       init FiscalPosition {[ "name" := VStr "Responsable Inscripto" ]};
     (VAT, 1) :=
       init VAT {[ "name" := VStr "21%"; "tax" := VNum (Q2Qc (21 # 100)) ]};
     (CompanyInvoice, 1) :=
       init CompanyInvoice
         {[ "persons_company" := VInt 1; "legal_name" := VStr "ACME" ]};
     (CompanyInvoice, 2) :=
       init CompanyInvoice
         {[ "persons_company" := VInt 2; "legal_name" := VStr "Globex" ]};
     (ContactInvoice, 1) :=
       init ContactInvoice
         {[ "contact_contact" := VInt 1; "legal_name" := VStr "Initech";
            "fiscal_position" := VInt 1; "fiscal_address" := VInt 1 ]};
     (CompanyInvoiceAR, 1) :=
       init CompanyInvoiceAR {[ "invoice_company" := VInt 1 ]};
     (CompanyInvoiceAR, 2) :=
       init CompanyInvoiceAR {[ "invoice_company" := VInt 2 ]} ]}.

(** * Properties *)

(** ** Declarations, instances and cleaned records *)

Lemma fields_names_NoDup (m : Model) : NoDup (name <$> fields m).
Proof. destruct m; apply (bool_decide_unpack _); vm_compute; exact I. Qed.

Lemma get_field_Some (m : Model) (n : string) (f : Field) :
  get_field m n = Some f → f ∈ fields m ∧ name f = n.
Proof.
  unfold get_field. intros H.
  destruct (list_find (λ f, name f = n) (fields m)) as [[i g]|] eqn:E;
    simpl in H; [|done].
  injection H as <-. apply list_find_Some in E as (Hi & Hn & _).
  split; [by eapply list_elem_of_lookup_2 | done].
Qed.

Lemma get_field_unique (m : Model) (f g : Field) :
  f ∈ fields m → g ∈ fields m → name f = name g → f = g.
Proof.
  intros Hf Hg Hn. pose proof (fields_names_NoDup m) as Hnd.
  apply list_elem_of_lookup in Hf as [i Hi]. apply list_elem_of_lookup in Hg as [j Hj].
  assert (i = j) as ->; [|congruence].
  eapply NoDup_lookup; [exact Hnd| |]; rewrite list_lookup_fmap.
  - by rewrite Hi.
  - rewrite Hj. simpl. by rewrite Hn.
Qed.

Lemma get_field_None (m : Model) (n : string) :
  get_field m n = None → n ∉ name <$> fields m.
Proof.
  unfold get_field. intros H Hin.
  destruct (list_find (λ f, name f = n) (fields m)) as [[i g]|] eqn:E;
    simpl in H; [done|].
  apply list_elem_of_fmap in Hin as (f & -> & Hf).
  rewrite list_find_None, Forall_forall in E. by apply (E f).
Qed.

Lemma column_init (m : Model) (kw : Attrs) (n : string) (f : Field) :
  get_field m n = Some f →
  column (init m kw) n = from_option id (get_default f) (kw !! n).
Proof.
  intros [Hin <-]%get_field_Some. unfold column, init.
  erewrite elem_of_list_to_map_1; [reflexivity| |].
  - rewrite <- list_fmap_compose. apply fields_names_NoDup.
  - apply list_elem_of_fmap. by exists f.
Qed.



Lemma clean_fields_nil (today : Z) (m : Model) (inst : Attrs) (f : Field) :
  clean_fields today m inst = [] →
  f ∈ fields m →
  Field_blank f = false →
  ∃ w, clean today f (column inst (name f)) = Ok w.
Proof.
  unfold clean_fields. intros Hnil Hf Hb.
  induction (fields m) as [|g l IH]; [by apply elem_of_nil in Hf|].
  simpl in Hnil. apply app_eq_nil in Hnil as [Hg Hl].
  apply elem_of_cons in Hf as [->|Hf]; [|by apply IH].
  rewrite Hb in Hg. simpl in Hg.
  destruct (clean today g (column inst (name g))); [by eexists | done].
Qed.

Lemma elem_of_clean_fields (today : Z) (m : Model) (inst : Attrs)
    (n : string) (e : Error) :
  (n, e) ∈ clean_fields today m inst ↔
  ∃ f, f ∈ fields m ∧ name f = n
       ∧ Field_blank f && empty_values (column inst n) = false
       ∧ clean today f (column inst n) = Err e.
Proof.
  unfold clean_fields. rewrite list_elem_of_bind. split.
  - intros (f & Hin & Hf).
    destruct (Field_blank f && empty_values (column inst (name f))) eqn:Hskip;
      [by apply elem_of_nil in Hin|].
    destruct (clean today f (column inst (name f))) eqn:Hc;
      [by apply elem_of_nil in Hin|].
    apply list_elem_of_singleton in Hin as [= -> ->]. by exists f.
  - intros (f & Hf & <- & Hskip & Hc). exists f. rewrite Hskip, Hc.
    split; [apply list_elem_of_singleton; reflexivity | done].
Qed.

(** ** Monetary fractions *)

(** A non-nullable DecimalField declared with
    validators=[MinValueValidator(0.00), MaxValueValidator(1.00)] cleans
    only numbers of the closed interval from 0 to 1. *)
Lemma clean_fraction_in_range (today : Z) (f : Field) (v w : Value) :
  ftype f = DecimalField →
  Field_choices f = None →
  Field_null f = false →
  Field_validators f = [MinValueValidator 0; MaxValueValidator 1] →
  clean today f v = Ok w →
  ∃ q, w = VNum q ∧ (0 ≤ q ≤ 1)%Qc.
Proof.
  intros Ht Hc Hn Hv. unfold clean, validate, run_validators, Field_all_validators.
  rewrite Ht, Hc, Hn, Hv.
  assert (Hnum : ∀ q, clean today f (VNum q) = Ok w →
                      ∃ q', w = VNum q' ∧ (0 ≤ q' ≤ 1)%Qc).
  { intros q. unfold clean, validate, run_validators, Field_all_validators.
    rewrite Ht, Hc, Hn, Hv. simpl. rewrite andb_false_r. simpl.
    unfold MinValueValidator, MaxValueValidator. simpl.
    destruct (decide (q < 0)%Qc) as [|Hlo]; [discriminate|]. simpl.
    destruct (decide (1 < q)%Qc) as [|Hhi]; [discriminate|]. simpl.
    intros [= <-]. exists q. split; [reflexivity|].
    split; [apply Qcnot_lt_le, Hlo | apply Qcnot_lt_le, Hhi]. }
  unfold clean, validate, run_validators, Field_all_validators in Hnum.
  rewrite Ht, Hc, Hn, Hv in Hnum.
  destruct v as [|s|z|q|d|b]; simpl; try discriminate.
  - apply (Hnum (Qc_of_Z z)).
  - apply Hnum.
Qed.

(** VAT.tax and InvoiceLine.discount are declared that way: whatever
    their cleaning returns lies between 0.00 and 1.00. *)
Lemma declared_fractions_in_range (today : Z) (v w : Value) :
  (clean_field today VAT "tax" v = Ok w
   ∨ clean_field today InvoiceLine "discount" v = Ok w) →
  ∃ q, w = VNum q ∧ (0 ≤ q ≤ 1)%Qc.
Proof.
  intros [H|H]; revert H; apply clean_fraction_in_range; reflexivity.
Qed.

(** C1 (at the failing input). QuotationLine.product_discount and
    SaleLine.product_discount carry the help text of InvoiceLine.discount,
    "A number between 0.00 and 1.00", but no validators: cleaning accepts
    2.0 for both, and a line holding it passes clean_fields, whereas
    InvoiceLine.discount and VAT.tax refuse the same value. *)
Theorem product_discount_not_range_checked (today : Z) :
  clean_field today QuotationLine "product_discount" (VNum 2) = Ok (VNum 2)
  ∧ clean_field today SaleLine "product_discount" (VNum 2) = Ok (VNum 2)
  ∧ clean_fields today QuotationLine
      (list_to_map [("product", VInt 1); ("product_discount", VNum 2);
                    ("quantity", VInt 1)]) = []
  ∧ clean_fields today SaleLine
      (list_to_map [("product", VInt 1); ("product_discount", VNum 2);
                    ("quantity", VInt 1)]) = []
  ∧ clean_field today InvoiceLine "discount" (VNum 2)
    = Err (ValidationError "max_value")
  ∧ clean_field today VAT "tax" (VNum 2) = Err (ValidationError "max_value")
  ∧ Field_help_text <$> get_field QuotationLine "product_discount"
    = Field_help_text <$> get_field InvoiceLine "discount"
  ∧ Field_help_text <$> get_field SaleLine "product_discount"
    = Field_help_text <$> get_field InvoiceLine "discount".
Proof. repeat split; vm_compute; reflexivity. Qed.

(** ** Dates of issue *)

Lemma clean_date_validated (today : Z) (f : Field) (d : Z) :
  ftype f = DateField →
  Field_choices f = None →
  Field_validators f = [date_is_present_or_past] →
  clean today f (VDate d)
  = if decide (today < d) then Err (ValidationError "invalid")
    else Ok (VDate d).
Proof.
  intros Ht Hc Hv. unfold clean, validate, run_validators, Field_all_validators.
  rewrite Ht, Hc, Hv. simpl. rewrite andb_false_r.
  unfold date_is_present_or_past.
  destruct (decide (today < d)); reflexivity.
Qed.

(** C3. For the date of issue of an Invoice, a Quotation or a Sale:
    cleaning the field raises a validation error exactly when the date is
    later than the current day and returns the date otherwise; a record
    holding a later date is reported by clean_fields under that field,
    and one holding today's or an earlier date is not.  (The validator
    itself is the one modelled from the spec.) *)
Theorem document_date_not_in_future
    (today : Z) (m : Model) (n : string) (d : Z) (inst : Attrs) :
  (m, n) ∈ [(Invoice, "invoice_date"); (Quotation, "quotation_date");
            (Sale, "sale_date")] →
  column inst n = VDate d →
  clean_field today m n (VDate d)
  = (if decide (today < d) then Err (ValidationError "invalid")
     else Ok (VDate d))
  ∧ (today < d → (n, ValidationError "invalid") ∈ clean_fields today m inst)
  ∧ (d ≤ today → n ∉ (clean_fields today m inst).*1).
Proof.
  intros Hm Hcol.
  assert (∃ f, get_field m n = Some f ∧ ftype f = DateField
               ∧ Field_choices f = None
               ∧ Field_validators f = [date_is_present_or_past])
    as (f & Hf & Ht & Hc & Hv).
  { repeat (apply elem_of_cons in Hm as [[= -> ->]|Hm]);
      [| | | by apply elem_of_nil in Hm]; by eexists. }
  pose proof (clean_date_validated today f d Ht Hc Hv) as Hclean.
  destruct (get_field_Some _ _ _ Hf) as [Hin Hname].
  split; [|split].
  - unfold clean_field. by rewrite Hf.
  - intros Hlater. apply elem_of_clean_fields. exists f.
    rewrite Hcol, Hclean, decide_True by done.
    repeat split; [done..|]. apply andb_false_r.
  - intros Hpast ([n' e] & Hn & Hin')%list_elem_of_fmap. simpl in Hn. subst n'.
    apply elem_of_clean_fields in Hin' as (g & Hg & Hgname & _ & Herr).
    assert (g = f) as -> by (apply (get_field_unique m); congruence).
    rewrite Hcol, Hclean, decide_False in Herr by lia. done.
Qed.

(** C3 at a quotation dated the day after today and at one dated
    today. *)
Lemma document_date_not_in_future_witness :
  let quotation (d : Z) : Attrs :=
    init Quotation {[ "persons_company" := VInt 1;
                      "quotation_date" := VDate d ]} in
  clean_fields 730000 Quotation (quotation 730001)
  = [("quotation_date", ValidationError "invalid")]
  ∧ ("quotation_date", ValidationError "invalid")
      ∈ clean_fields 730000 Quotation (quotation 730001)
  ∧ clean_fields 730000 Quotation (quotation 730000) = []
  ∧ "quotation_date" ∉ (clean_fields 730000 Quotation (quotation 730000)).*1.
Proof.
  intros quotation.
  destruct (document_date_not_in_future 730000 Quotation "quotation_date"
              730001 (quotation 730001)) as (_ & Hlater & _);
    [repeat constructor | reflexivity |].
  destruct (document_date_not_in_future 730000 Quotation "quotation_date"
              730000 (quotation 730000)) as (_ & _ & Hpast);
    [repeat constructor | reflexivity |].
  split; [vm_compute; reflexivity|]. split; [apply Hlater; lia|].
  split; [vm_compute; reflexivity|]. apply Hpast. lia.
Defined.

(** ** Status enumerations *)

Lemma in_choices_spec (cs : list (string * string)) (v : Value) :
  in_choices cs v = true ↔ ∃ key label, v = VStr key ∧ (key, label) ∈ cs.
Proof.
  unfold in_choices. rewrite bool_decide_eq_true, Exists_exists. split.
  - intros ([key label] & Hin & ->). by exists key, label.
  - intros (key & label & -> & Hin). by exists (key, label).
Qed.

(** A required CharField with choices, no validators of its own and a
    max_length that every non-empty key fits, cleans exactly the keys. *)
Lemma clean_choice_field (today : Z) (f : Field) (cs : list (string * string))
    (n : nat) (v : Value) :
  ftype f = CharField →
  Field_choices f = Some cs →
  Field_null f = false →
  Field_blank f = false →
  Field_validators f = [] →
  Field_max_length f = Some n →
  Forall (λ c, c.1 ≠ "" ∧ (len c.1 ≤ n)%nat) cs →
  is_ok (clean today f v) = in_choices cs v.
Proof.
  intros Ht Hc Hn Hb Hv Hm Hkeys.
  unfold clean, validate, run_validators, Field_all_validators.
  rewrite Ht, Hc, Hn, Hb, Hv, Hm.
  destruct v as [|s|z|q|d|b]; simpl;
    try (symmetry; apply not_true_is_false;
         intros (? & ? & [=] & _)%in_choices_spec; fail).
  destruct (in_choices cs (VStr s)) eqn:E.
  - apply in_choices_spec in E as (key & label & [= ->] & Hin).
    rewrite Forall_forall in Hkeys. destruct (Hkeys _ Hin) as [Hne Hlen].
    simpl in *. rewrite (bool_decide_eq_false_2 _ Hne). simpl.
    destruct (decide (n < len key)%nat); [lia | reflexivity].
  - by destruct (bool_decide (s = "")).
Qed.

Lemma status_choice_field (today : Z) (m : Model) (v : Value) :
  m ∈ [Invoice; Quotation; Sale] →
  is_ok (clean_field today m "status" v) = in_choices (status_choices m) v.
Proof.
  intros Hm. unfold clean_field.
  repeat (apply elem_of_cons in Hm as [->|Hm]);
    [| | | by apply elem_of_nil in Hm];
    (eapply clean_choice_field; [done..|]);
    repeat constructor; simpl; try done; lia.
Qed.

(** C9. The status choices are Draft, Accepted, Authorized, Canceled for
    an Invoice, Draft, Saved, Sold, Canceled for a Quotation and Draft,
    Saved, Invoiced, Canceled for a Sale.  For each of the three models,
    cleaning the status field succeeds exactly on the keys of its
    choices, and a record whose clean_fields reports no error holds one
    of these keys, displayed under its label. *)
Theorem status_in_enumeration (today : Z) :
  status_choices Invoice
  = [("D", "Draft"); ("A", "Accepted"); ("T", "Authorized"); ("C", "Canceled")]
  ∧ status_choices Quotation
    = [("D", "Draft"); ("SA", "Saved"); ("SO", "Sold"); ("C", "Canceled")]
  ∧ status_choices Sale
    = [("D", "Draft"); ("S", "Saved"); ("I", "Invoiced"); ("C", "Canceled")]
  ∧ ∀ m, m ∈ [Invoice; Quotation; Sale] →
      (∀ v, is_ok (clean_field today m "status" v) = true
            ↔ ∃ key label, v = VStr key ∧ (key, label) ∈ status_choices m)
      ∧ (∀ inst, clean_fields today m inst = [] →
           ∃ key label, column inst "status" = VStr key
                        ∧ (key, label) ∈ status_choices m
                        ∧ get_display m "status" inst = Some label).
Proof.
  do 3 (split; [reflexivity|]). intros m Hm.
  assert (Hfield : ∀ v, is_ok (clean_field today m "status" v) = true
            ↔ ∃ key label, v = VStr key ∧ (key, label) ∈ status_choices m).
  { intros v. rewrite status_choice_field by done. apply in_choices_spec. }
  split; [exact Hfield|]. intros inst Hvalid.
  assert (∃ f, get_field m "status" = Some f ∧ Field_blank f = false)
    as (f & Hf & Hb).
  { repeat (apply elem_of_cons in Hm as [->|Hm]);
      [| | | by apply elem_of_nil in Hm]; by eexists. }
  destruct (get_field_Some _ _ _ Hf) as [Hin Hname].
  destruct (clean_fields_nil today m inst f Hvalid Hin Hb) as [w Hw].
  rewrite Hname in Hw.
  destruct (proj1 (Hfield (column inst "status"))) as (key & label & Hkey & Hl).
  { unfold clean_field. by rewrite Hf, Hw. }
  clear Hfield Hw Hvalid.
  repeat (apply elem_of_cons in Hm as [->|Hm]);
    [| | | by apply elem_of_nil in Hm];
    unfold get_display; rewrite Hkey;
    vm_compute in Hl;
    repeat (apply elem_of_cons in Hl as [[= -> ->]|Hl]);
      try (by apply elem_of_nil in Hl);
      (eexists _, _; split; [reflexivity|]; split; [|vm_compute; reflexivity]);
      apply (bool_decide_unpack _); vm_compute; exact I.
Qed.

(** C9 at an accepted invoice dated today. *)
Lemma status_in_enumeration_witness :
  let inst : Attrs :=
    init Invoice {[ "invoice_company" := VInt 1; "invoice_contact" := VInt 1;
                    "invoice_date" := VDate 730000; "status" := VStr "A" ]} in
  clean_fields 730000 Invoice inst = []
  ∧ ∃ key label, column inst "status" = VStr key
                 ∧ (key, label) ∈ status_choices Invoice
                 ∧ get_display Invoice "status" inst = Some label.
Proof.
  intros inst.
  assert (Hvalid : clean_fields 730000 Invoice inst = [])
    by (vm_compute; reflexivity).
  split; [exact Hvalid|].
  destruct (status_in_enumeration 730000) as (_ & _ & _ & H).
  destruct (H Invoice) as [_ Hrecord]; [repeat constructor|].
  exact (Hrecord inst Hvalid).
Defined.

(** ** Inserting rows *)

Lemma not_null_violated_false (m : Model) (obj : Attrs) :
  not_null_violated m obj = false ↔
  ∀ f, f ∈ fields m → Field_null f = false → column obj (name f) ≠ VNone.
Proof.
  unfold not_null_violated. rewrite <- not_true_iff_false, existsb_exists.
  split.
  - intros Hno f Hf Hnull Hcol. apply Hno. exists f.
    rewrite <- list_elem_of_In, Hnull, Hcol. by rewrite bool_decide_eq_true_2.
  - intros Hall (f & Hf & Hv). apply list_elem_of_In in Hf.
    apply andb_true_iff in Hv as [Hnull Hcol].
    apply negb_true_iff in Hnull. apply bool_decide_eq_true in Hcol.
    by apply (Hall f).
Qed.



Lemma foreign_key_violated_false (m : Model) (obj : Attrs) (db : DB) :
  foreign_key_violated m obj db = false ↔
  ∀ f k, f ∈ fields m → target_of f obj = Some k → is_Some (db !! k).
Proof.
  unfold foreign_key_violated. rewrite <- not_true_iff_false, existsb_exists.
  split.
  - intros Hno f k Hf Ht. destruct (db !! k) eqn:Hk; [done|].
    destruct Hno. exists f. rewrite <- list_elem_of_In, Ht. simpl.
    by rewrite bool_decide_eq_true_2.
  - intros Hall (f & Hf%list_elem_of_In & Hv).
    destruct (target_of f obj) as [k|] eqn:Ht; simpl in Hv; [|done].
    apply bool_decide_eq_true in Hv.
    destruct (Hall f k Hf Ht) as [? ?]. congruence.
Qed.


Lemma unique_violated_insert (m : Model) (obj new : Attrs) (db : DB) (pk : Z) :
  unique_violated m obj (<[(m, pk) := new]> db) →
  unique_violated m obj db
  ∨ ∃ cols, cols ∈ unique_constraints m ∧ same_on cols obj new.
Proof.
  unfold unique_violated. rewrite !Exists_exists.
  intros (cols & Hcols & k & row & Hrow & Hk & Hsame).
  apply lookup_insert_Some in Hrow as [[_ <-]|[_ Hrow]].
  - right. by exists cols.
  - left. exists cols. split; [done|]. by exists k, row.
Qed.

Lemma create_Ok (m : Model) (kw : Attrs) (db : DB) (pk : Z) :
  (create m kw db).1 = Ok pk ↔
  not_null_violated m (init m kw) = false
  ∧ foreign_key_violated m (init m kw) db = false
  ∧ ¬ unique_violated m (init m kw) db
  ∧ pk = next_pk m db.
Proof.
  unfold create.
  destruct (not_null_violated m (init m kw)); simpl;
    [split; [done | by intros [? _]]|].
  destruct (foreign_key_violated m (init m kw) db); simpl;
    [split; [done | by intros (_ & ? & _)]|].
  destruct (decide (unique_violated m (init m kw) db)) as [Hu|Hu].
  - rewrite (bool_decide_eq_true_2 _ Hu). simpl.
    split; [done | by intros (_ & _ & ? & _)].
  - rewrite (bool_decide_eq_false_2 _ Hu). simpl.
    split; [by intros [= <-] | by intros (_ & _ & _ & ->)].
Qed.

Lemma create_Ok_db (m : Model) (kw : Attrs) (db : DB) (pk : Z) :
  (create m kw db).1 = Ok pk →
  (create m kw db).2 = <[(m, pk) := init m kw]> db.
Proof.
  unfold create. destruct (_ || _ || _); simpl; [done|]. by intros [= <-].
Qed.

Lemma create_Err_db (m : Model) (kw : Attrs) (db : DB) (e : Error) :
  (create m kw db).1 = Err e → create m kw db = (Err IntegrityError, db).
Proof. unfold create. by destruct (_ || _ || _). Qed.


(** A second row that agrees with a stored one on the non-NULL columns of
    a unique constraint is refused. *)
Lemma create_duplicate (m : Model) (kw1 kw2 : Attrs) (db : DB) (pk1 : Z)
    (cols : list string) :
  (create m kw1 db).1 = Ok pk1 →
  cols ∈ unique_constraints m →
  (∀ c, c ∈ cols → column (init m kw1) c ≠ VNone) →
  (∀ c, c ∈ cols → column (init m kw2) c = column (init m kw1) c) →
  create m kw2 (create m kw1 db).2 = (Err IntegrityError, (create m kw1 db).2).
Proof.
  intros Hok Hcols Hnn Heq. rewrite (create_Ok_db _ _ _ _ Hok).
  destruct (create m kw2 (<[(m, pk1) := init m kw1]> db)).1 as [pk|e] eqn:E;
    [|exact (create_Err_db _ _ _ _ E)].
  apply create_Ok in E as (_ & _ & Hno & _). destruct Hno.
  unfold unique_violated. rewrite Exists_exists. exists cols. split; [done|].
  exists (m, pk1), (init m kw1). rewrite lookup_insert_eq.
  repeat split; [done..|]. apply Forall_forall. intros c Hc.
  rewrite (Heq c Hc). split; [by apply Hnn | done].
Qed.

(** A second row that differs from the stored one on some column of every
    unique constraint is accepted if it was acceptable before. *)
Lemma create_distinct (m : Model) (kw1 kw2 : Attrs) (db : DB) (pk1 pk2 : Z) :
  (create m kw1 db).1 = Ok pk1 →
  (create m kw2 db).1 = Ok pk2 →
  (∀ cols, cols ∈ unique_constraints m →
     ∃ c, c ∈ cols ∧ column (init m kw2) c ≠ column (init m kw1) c) →
  ∃ pk, (create m kw2 (create m kw1 db).2).1 = Ok pk.
Proof.
  intros Hok1 Hok2 Hdiff. rewrite (create_Ok_db _ _ _ _ Hok1).
  apply create_Ok in Hok2 as (Hnn & Hfk & Huniq & _).
  eexists. apply create_Ok. split; [done|]. split; [|split; [|reflexivity]].
  - apply foreign_key_violated_false. intros f k Hf Ht.
    rewrite foreign_key_violated_false in Hfk.
    destruct (Hfk f k Hf Ht) as [row Hrow].
    destruct (decide (k = (m, pk1))) as [->|Hk].
    + rewrite lookup_insert_eq. by eexists.
    + rewrite lookup_insert_ne by done. by eexists.
  - intros [Hold|(cols & Hcols & Hsame)]%unique_violated_insert; [done|].
    destruct (Hdiff cols Hcols) as (c & Hc & Hne).
    unfold same_on in Hsame. rewrite Forall_forall in Hsame.
    by destruct (Hsame c Hc).
Qed.

Lemma created_not_null (m : Model) (kw : Attrs) (db : DB) (pk : Z)
    (n : string) (f : Field) :
  (create m kw db).1 = Ok pk →
  get_field m n = Some f →
  Field_null f = false →
  column (init m kw) n ≠ VNone.
Proof.
  intros (Hnn & _)%create_Ok [Hin <-]%get_field_Some Hnull.
  rewrite not_null_violated_false in Hnn. by apply Hnn.
Qed.

(** ** The default status *)

(** C10. An Invoice, a Quotation or a Sale instantiated without a status
    keyword holds status 'D', displayed as Draft; when its creation
    succeeds, this is the row that is stored. *)
Theorem status_defaults_to_draft (m : Model) (kw : Attrs) (db : DB) :
  m ∈ [Invoice; Quotation; Sale] →
  kw !! "status" = None →
  column (init m kw) "status" = VStr "D"
  ∧ get_display m "status" (init m kw) = Some "Draft"
  ∧ ∀ pk, (create m kw db).1 = Ok pk →
          (create m kw db).2 !! (m, pk) = Some (init m kw).
Proof.
  intros Hm Hkw.
  assert (Hcol : column (init m kw) "status" = VStr "D").
  { repeat (apply elem_of_cons in Hm as [->|Hm]);
      [| | | by apply elem_of_nil in Hm];
      (erewrite column_init; [|vm_compute; reflexivity]);
      by rewrite Hkw. }
  split; [exact Hcol|]. split.
  - unfold get_display. rewrite Hcol.
    repeat (apply elem_of_cons in Hm as [->|Hm]);
      [| | | by apply elem_of_nil in Hm]; vm_compute; reflexivity.
  - intros pk Hok. rewrite (create_Ok_db _ _ _ _ Hok).
    apply lookup_insert_eq.
Qed.

(** C10 at an invoice created in the registry with its company, contact
    and date only. *)
Lemma status_defaults_to_draft_witness :
  let kw : Attrs :=
    {[ "invoice_company" := VInt 1; "invoice_contact" := VInt 1;
       "invoice_date" := VDate 730000 ]} in
  (create Invoice kw registry).1 = Ok 1
  ∧ column (init Invoice kw) "status" = VStr "D"
  ∧ get_display Invoice "status" (init Invoice kw) = Some "Draft"
  ∧ (create Invoice kw registry).2 !! (Invoice, 1) = Some (init Invoice kw).
Proof.
  intros kw.
  assert (Hok : (create Invoice kw registry).1 = Ok 1)
    by (vm_compute; reflexivity).
  destruct (status_defaults_to_draft Invoice kw registry)
    as (Hcol & Hlabel & Hrow); [repeat constructor | reflexivity |].
  exact (conj Hok (conj Hcol (conj Hlabel (Hrow 1 Hok)))).
Defined.

(** ** Required and optional fiscal position *)



(** ** Uniqueness within a company *)

(** C6. Once a Product has been created, creating another one with the
    same invoice_company and the same name fails with IntegrityError and
    leaves the table as it was.  Among well-typed rows (company keys are
    integers, stored as they are), one with the same name under another
    company, acceptable before, is accepted after as well. *)
Theorem product_name_unique_per_company (kw1 kw2 : Attrs) (db : DB) (pk1 : Z) :
  (create Product kw1 db).1 = Ok pk1 →
  column (init Product kw2) "name" = column (init Product kw1) "name" →
  let db1 := (create Product kw1 db).2 in
  (column (init Product kw2) "invoice_company"
   = column (init Product kw1) "invoice_company" →
   create Product kw2 db1 = (Err IntegrityError, db1))
  ∧ (well_typed_db db = true →
     well_typed Product kw1 = true →
     well_typed Product kw2 = true →
     ∀ company1 company2 : Z,
     column (init Product kw1) "invoice_company" = VInt company1 →
     column (init Product kw2) "invoice_company" = VInt company2 →
     company2 ≠ company1 →
     ∀ pk2, (create Product kw2 db).1 = Ok pk2 →
     ∃ pk, (create Product kw2 db1).1 = Ok pk).
Proof.
  intros Hok Hname db1. split.
  - intros Hcompany.
    apply (create_duplicate _ _ _ _ pk1 ["invoice_company"; "name"]);
      [done | vm_compute; repeat constructor | |];
      intros c Hc; repeat (apply elem_of_cons in Hc as [->|Hc]);
        try (by apply elem_of_nil in Hc); try done;
        by eapply created_not_null.
  - intros _ _ _ company1 company2 Hc1 Hc2 Hcompany pk2 Hok2.
    apply (create_distinct _ _ _ _ pk1 pk2); [done..|].
    intros cols Hcols. vm_compute in Hcols.
    apply list_elem_of_singleton in Hcols as ->.
    exists "invoice_company". split; [repeat constructor|].
    rewrite Hc1, Hc2. congruence.
Qed.

(** C6 at two widgets of company 1 and one of company 2. *)
Lemma product_name_unique_per_company_witness :
  let widget (c : Z) : Attrs :=
    {[ "invoice_company" := VInt c; "name" := VStr "widget";
       "vat" := VInt 1 ]} in
  let db1 := (create Product (widget 1) registry).2 in
  (create Product (widget 1) registry).1 = Ok 1
  ∧ create Product (widget 1) db1 = (Err IntegrityError, db1)
  ∧ ∃ pk, (create Product (widget 2) db1).1 = Ok pk.
Proof.
  intros widget db1.
  assert (Hok : (create Product (widget 1) registry).1 = Ok 1)
    by (vm_compute; reflexivity).
  split; [exact Hok|]. split.
  - destruct (product_name_unique_per_company (widget 1) (widget 1) registry 1)
      as [Hsame _]; [exact Hok | reflexivity |].
    apply Hsame. reflexivity.
  - destruct (product_name_unique_per_company (widget 1) (widget 2) registry 1)
      as [_ Hother]; [exact Hok | vm_compute; reflexivity |].
    apply (Hother ltac:(vm_compute; reflexivity) ltac:(vm_compute; reflexivity)
             ltac:(vm_compute; reflexivity) 1 2
             ltac:(vm_compute; reflexivity) ltac:(vm_compute; reflexivity)
             ltac:(discriminate) 1).
    vm_compute. reflexivity.
Defined.

(** C7. Once a PointOfSaleAR has been created, creating another one with
    the same invoicear_company and the same afip_id fails with
    IntegrityError and leaves the table as it was.  Among well-typed rows
    (company keys are integers, stored as they are), one with the same
    afip_id under another company, acceptable before, is accepted after
    as well. *)
Theorem point_of_sale_afip_id_unique_per_company
    (kw1 kw2 : Attrs) (db : DB) (pk1 : Z) :
  (create PointOfSaleAR kw1 db).1 = Ok pk1 →
  column (init PointOfSaleAR kw2) "afip_id"
  = column (init PointOfSaleAR kw1) "afip_id" →
  let db1 := (create PointOfSaleAR kw1 db).2 in
  (column (init PointOfSaleAR kw2) "invoicear_company"
   = column (init PointOfSaleAR kw1) "invoicear_company" →
   create PointOfSaleAR kw2 db1 = (Err IntegrityError, db1))
  ∧ (well_typed_db db = true →
     well_typed PointOfSaleAR kw1 = true →
     well_typed PointOfSaleAR kw2 = true →
     ∀ company1 company2 : Z,
     column (init PointOfSaleAR kw1) "invoicear_company" = VInt company1 →
     column (init PointOfSaleAR kw2) "invoicear_company" = VInt company2 →
     company2 ≠ company1 →
     ∀ pk2, (create PointOfSaleAR kw2 db).1 = Ok pk2 →
     ∃ pk, (create PointOfSaleAR kw2 db1).1 = Ok pk).
Proof.
  intros Hok Hid db1. split.
  - intros Hcompany.
    apply (create_duplicate _ _ _ _ pk1 ["invoicear_company"; "afip_id"]);
      [done | vm_compute; repeat constructor | |];
      intros c Hc; repeat (apply elem_of_cons in Hc as [->|Hc]);
        try (by apply elem_of_nil in Hc); try done;
        by eapply created_not_null.
  - intros _ _ _ company1 company2 Hc1 Hc2 Hcompany pk2 Hok2.
    apply (create_distinct _ _ _ _ pk1 pk2); [done..|].
    intros cols Hcols. vm_compute in Hcols.
    apply list_elem_of_singleton in Hcols as ->.
    exists "invoicear_company". split; [repeat constructor|].
    rewrite Hc1, Hc2. congruence.
Qed.

(** C7 at AFIP id 4 registered twice for company 1 and once for
    company 2. *)
Lemma point_of_sale_afip_id_unique_per_company_witness :
  let pos (c : Z) : Attrs :=
    {[ "invoicear_company" := VInt c; "afip_id" := VInt 4;
       "fantasy_name" := VStr "Centro"; "fiscal_address" := VInt 1 ]} in
  let db1 := (create PointOfSaleAR (pos 1) registry).2 in
  (create PointOfSaleAR (pos 1) registry).1 = Ok 1
  ∧ create PointOfSaleAR (pos 1) db1 = (Err IntegrityError, db1)
  ∧ ∃ pk, (create PointOfSaleAR (pos 2) db1).1 = Ok pk.
Proof.
  intros pos db1.
  assert (Hok : (create PointOfSaleAR (pos 1) registry).1 = Ok 1)
    by (vm_compute; reflexivity).
  split; [exact Hok|]. split.
  - destruct (point_of_sale_afip_id_unique_per_company (pos 1) (pos 1)
                registry 1) as [Hsame _]; [exact Hok | reflexivity |].
    apply Hsame. reflexivity.
  - destruct (point_of_sale_afip_id_unique_per_company (pos 1) (pos 2)
                registry 1) as [_ Hother];
      [exact Hok | vm_compute; reflexivity |].
    apply (Hother ltac:(vm_compute; reflexivity) ltac:(vm_compute; reflexivity)
             ltac:(vm_compute; reflexivity) 1 2
             ltac:(vm_compute; reflexivity) ltac:(vm_compute; reflexivity)
             ltac:(discriminate) 1).
    vm_compute. reflexivity.
Defined.

(** ** Deleting rows *)

Lemma references_spec (rels : list (Model * Field)) (h : OnDelete)
    (objs : gset Key) (m : Model) (row : Attrs) :
  references rels h objs m row = true ↔
  ∃ f k, (m, f) ∈ rels ∧ handler f = h ∧ target_of f row = Some k ∧ k ∈ objs.
Proof.
  unfold references. rewrite existsb_exists. split.
  - intros ([m' f] & Hin & Hb). simpl in Hb.
    apply andb_true_iff in Hb as [Hb Hk]. apply andb_true_iff in Hb as [Hm Hh].
    apply bool_decide_eq_true in Hm as ->. apply bool_decide_eq_true in Hh.
    destruct (target_of f row) as [k|] eqn:Ht; simpl in Hk; [|done].
    apply bool_decide_eq_true in Hk. exists f, k.
    rewrite list_elem_of_In. auto.
  - intros (f & k & Hin & Hh & Ht & Hk). exists (m, f). simpl.
    rewrite <- list_elem_of_In, Ht. simpl.
    by rewrite !bool_decide_eq_true_2.
Qed.

Lemma elem_of_related_objects (rels : list (Model * Field)) (h : OnDelete)
    (objs : gset Key) (db : DB) (k : Key) :
  k ∈ related_objects rels h objs db ↔
  ∃ row f t, db !! k = Some row ∧ (k.1, f) ∈ rels ∧ handler f = h
             ∧ target_of f row = Some t ∧ t ∈ objs.
Proof.
  unfold related_objects. rewrite elem_of_dom. unfold is_Some.
  setoid_rewrite map_lookup_filter_Some. simpl.
  setoid_rewrite references_spec. naive_solver.
Qed.

Lemma related_objects_dom rels h objs db :
  related_objects rels h objs db ⊆ dom db.
Proof.
  intros k (row & _ & _ & Hk & _)%elem_of_related_objects.
  by apply elem_of_dom.
Qed.

(** collect either raises ProtectedError or answers a set that contains
    what had been seen. *)
Lemma collect_Err rels db fuel new_objs seen e :
  collect rels db fuel new_objs seen = Err e → e = ProtectedError.
Proof.
  revert new_objs seen. induction fuel as [|fuel IH]; intros new_objs seen;
    simpl; repeat case_decide; try congruence. apply IH.
Qed.

Lemma collect_seen rels db fuel new_objs seen s :
  collect rels db fuel new_objs seen = Ok s → seen ⊆ s.
Proof.
  revert new_objs seen. induction fuel as [|fuel IH]; intros new_objs seen;
    simpl; repeat case_decide; try congruence; try (by intros [= ->]).
  intros Hrec%IH. set_solver.
Qed.

Lemma collect_protected rels db fuel new_objs seen k :
  k ∈ related_objects rels PROTECT new_objs db →
  collect rels db fuel new_objs seen = Err ProtectedError.
Proof.
  intros Hk. destruct fuel; simpl; case_decide; set_solver.
Qed.

Lemma referrers_in_related rels db objs into :
  related_objects rels PROTECT objs db = ∅ →
  related_objects rels CASCADE objs db ⊆ into →
  referrers_in rels db objs into.
Proof.
  intros Hp Hc k row f t Hrow Hrel Ht Hobj.
  destruct (handler f) eqn:Hh.
  - split; [done|]. apply Hc, elem_of_related_objects. by exists row, f, t.
  - assert (k ∈ related_objects rels PROTECT objs db) as Hk
      by (apply elem_of_related_objects; by exists row, f, t).
    rewrite Hp in Hk. by apply elem_of_empty in Hk.
Qed.

Lemma collect_closed rels db fuel new_objs seen s :
  new_objs ⊆ seen →
  referrers_in rels db (seen ∖ new_objs) seen →
  (size (dom db ∖ seen) ≤ fuel)%nat →
  collect rels db fuel new_objs seen = Ok s →
  referrers_in rels db s s.
Proof.
  revert new_objs seen.
  induction fuel as [|fuel IH]; intros new_objs seen Hnew Hinv Hfuel; simpl;
    (destruct (decide (related_objects rels PROTECT new_objs db = ∅))
       as [Hprot|]; [|done]);
    (destruct (decide (related_objects rels CASCADE new_objs db ∖ seen = ∅))
       as [Hsub|Hsub]).
  1, 3: intros [= <-]; intros k row f t Hrow Hrel Ht Hobj;
    (destruct (decide (t ∈ new_objs)) as [Hin|Hout];
     [ destruct (referrers_in_related rels db new_objs
                   (related_objects rels CASCADE new_objs db) Hprot
                   ltac:(done) k row f t Hrow Hrel Ht Hin) as [Hh Hk];
       split; [done|];
       destruct (decide (k ∈ seen)); [done|];
       assert (k ∈ related_objects rels CASCADE new_objs db ∖ seen)
         as Hk' by (by apply elem_of_difference);
       rewrite Hsub in Hk'; by apply elem_of_empty in Hk'
     | apply (Hinv k row f t); [done..|]; by apply elem_of_difference ]).
  - (* no round left, yet something new: the bound excludes it *)
    assert (dom db ∖ seen = ∅) as Hnone.
    { apply leibniz_equiv, size_empty_inv. lia. }
    destruct Hsub. apply leibniz_equiv, elem_of_equiv_empty.
    intros k [Hk Hseen]%elem_of_difference.
    apply related_objects_dom in Hk.
    assert (k ∈ dom db ∖ seen) as Hk' by (by apply elem_of_difference).
    rewrite Hnone in Hk'. by apply elem_of_empty in Hk'.
  - set (sub_objs := related_objects rels CASCADE new_objs db ∖ seen) in *.
    apply IH.
    + set_solver.
    + intros k row f t Hrow Hrel Ht [Ht1 Ht2]%elem_of_difference.
      assert (t ∈ seen) as Hseen by set_solver.
      destruct (decide (t ∈ new_objs)) as [Hin|Hout].
      * destruct (referrers_in_related rels db new_objs
                    (related_objects rels CASCADE new_objs db) Hprot
                    ltac:(done) k row f t Hrow Hrel Ht Hin) as [Hh Hk].
        split; [done|]. destruct (decide (k ∈ seen)); [set_solver|].
        apply elem_of_union_r. by apply elem_of_difference.
      * destruct (Hinv k row f t) as [Hh Hk]; [done..| |].
        { by apply elem_of_difference. }
        split; [done|]. by apply elem_of_union_l.
    + assert (sub_objs ≠ ∅) as Hne by done.
      apply set_choose_L in Hne as [x Hx].
      assert (x ∈ dom db ∖ seen) as Hx1.
      { apply elem_of_difference in Hx as [Hx ?].
        apply related_objects_dom in Hx. by apply elem_of_difference. }
      assert (x ∉ dom db ∖ (seen ∪ sub_objs)) as Hx2 by set_solver.
      assert (dom db ∖ (seen ∪ sub_objs) ⊂ dom db ∖ seen) as Hlt
        by set_solver.
      apply subset_size in Hlt. lia.
Qed.

(** What a deletion can answer: either ProtectedError with the database
    untouched, or the removal of a set of rows that contains the target
    and every row pointing into the set. *)
Lemma delete_outcomes rels k db :
  delete rels k db = (Err ProtectedError, db)
  ∨ ∃ s, k ∈ s ∧ referrers_in rels db s s
         ∧ delete rels k db
           = (Ok (size (filter (λ kr : Key * Attrs, kr.1 ∈ s) db)),
              filter (λ kr : Key * Attrs, kr.1 ∉ s) db).
Proof.
  unfold delete.
  destruct (collect rels db (size db) {[k]} {[k]}) as [s|e] eqn:Hc.
  - right. exists s. split; [|split; [|done]].
    + apply collect_seen in Hc. set_solver.
    + apply (collect_closed _ _ _ _ _ _ ltac:(done)) in Hc; [done| |].
      * intros k' row f t _ _ _ Ht. set_solver.
      * rewrite <- size_dom. apply subseteq_size. set_solver.
  - left. by rewrite (collect_Err _ _ _ _ _ _ Hc).
Qed.

Lemma delete_Ok rels k db n db' :
  delete rels k db = (Ok n, db') →
  ∃ s, k ∈ s ∧ referrers_in rels db s s
       ∧ db' = filter (λ kr : Key * Attrs, kr.1 ∉ s) db.
Proof.
  intros Hd. destruct (delete_outcomes rels k db) as [He|(s & Hk & Hs & Hok)].
  - congruence.
  - exists s. rewrite Hok in Hd. by injection Hd as _ <-.
Qed.

(** PROTECT: a row pointing at the target through a protected relation
    makes the deletion raise, and nothing is deleted. *)
Lemma delete_protected rels k db k' row f :
  db !! k' = Some row → (k'.1, f) ∈ rels → handler f = PROTECT →
  target_of f row = Some k →
  delete rels k db = (Err ProtectedError, db).
Proof.
  intros Hrow Hrel Hh Ht. unfold delete.
  rewrite (collect_protected _ _ _ _ _ k'); [done|].
  apply elem_of_related_objects. exists row, f, k.
  repeat split; [done..|]. by apply elem_of_singleton.
Qed.

(** CASCADE: when the deletion goes through, the target is gone and so is
    every row that pointed at it. *)
Lemma delete_cascades rels k db n db' k' row f :
  delete rels k db = (Ok n, db') →
  db !! k' = Some row → (k'.1, f) ∈ rels → target_of f row = Some k →
  handler f = CASCADE ∧ db' !! k' = None ∧ db' !! k = None.
Proof.
  intros (s & Hk & Hs & ->)%delete_Ok Hrow Hrel Ht.
  destruct (Hs k' row f k Hrow Hrel Ht Hk) as [Hh Hk'].
  split; [done|].
  split; apply map_lookup_filter_None; right; intros ? _; simpl; tauto.
Qed.

(** No reference is left dangling by a deletion: what a remaining row
    points at remains. *)
Lemma delete_referential_integrity rels k db n db' k' row f t :
  delete rels k db = (Ok n, db') →
  db' !! k' = Some row → (k'.1, f) ∈ rels → target_of f row = Some t →
  t ∈ dom db → t ∈ dom db'.
Proof.
  intros (s & Hk & Hs & ->)%delete_Ok
    [Hrow Hk']%map_lookup_filter_Some Hrel Ht [x Hx]%elem_of_dom.
  simpl in Hk'. apply elem_of_dom. exists x.
  apply map_lookup_filter_Some. split; [done|]. simpl. intros Hts.
  by destruct (Hs k' row f t Hrow Hrel Ht Hts).
Qed.

(** collect goes through, and stays within [into], when [into] holds the
    objects to delete and every row pointing into it does so through a
    cascading relation and belongs to it. *)
Lemma collect_within (rels : list (Model * Field)) (db : DB) (fuel : nat)
    (new_objs seen into : gset Key) :
  new_objs ⊆ into → seen ⊆ into → referrers_in rels db into into →
  ∃ s, collect rels db fuel new_objs seen = Ok s ∧ s ⊆ into.
Proof.
  intros Hnew Hseen Hinto. revert new_objs seen Hnew Hseen.
  assert (Hprot : ∀ objs, objs ⊆ into →
            related_objects rels PROTECT objs db = ∅).
  { intros objs Hobjs. apply leibniz_equiv, elem_of_equiv_empty. intros k.
    rewrite elem_of_related_objects.
    intros (row & f & t & Hrow & Hf & Hh & Ht & Hin).
    destruct (Hinto k row f t Hrow Hf Ht (Hobjs t Hin)) as [Hc _].
    congruence. }
  assert (Hcasc : ∀ objs, objs ⊆ into →
            related_objects rels CASCADE objs db ⊆ into).
  { intros objs Hobjs k. rewrite elem_of_related_objects.
    intros (row & f & t & Hrow & Hf & Hh & Ht & Hin).
    by destruct (Hinto k row f t Hrow Hf Ht (Hobjs t Hin)). }
  induction fuel as [|fuel IH]; intros new_objs seen Hnew Hseen; simpl;
    (destruct (decide (related_objects rels PROTECT new_objs db = ∅))
       as [_|Hne]; [|by destruct Hne; apply Hprot]).
  - case_decide; by exists seen.
  - case_decide; [by exists seen|].
    pose proof (Hcasc new_objs Hnew). apply IH; set_solver.
Qed.

Lemma delete_within (rels : list (Model * Field)) (k : Key) (db : DB)
    (into : gset Key) :
  k ∈ into → referrers_in rels db into into →
  ∃ s, k ∈ s ∧ s ⊆ into
       ∧ delete rels k db
         = (Ok (size (filter (λ kr : Key * Attrs, kr.1 ∈ s) db)),
            filter (λ kr : Key * Attrs, kr.1 ∉ s) db).
Proof.
  intros Hk Hinto.
  destruct (collect_within rels db (size db) {[k]} {[k]} into)
    as (s & Hc & Hs); [set_solver | set_solver | done |].
  exists s. split; [apply collect_seen in Hc; set_solver|].
  split; [done|]. unfold delete. by rewrite Hc.
Qed.

(** ** The on_delete rules of the three files *)

Lemma elem_of_relations (m : Model) (f : Field) :
  (m, f) ∈ relations ↔ f ∈ fields m ∧ is_Some (remote_model f).
Proof.
  unfold relations. rewrite list_elem_of_bind. split.
  - intros (m' & (f' & Hin & Hf)%list_elem_of_bind & _).
    destruct (remote_model f') eqn:E; [|by apply elem_of_nil in Hin].
    apply list_elem_of_singleton in Hin as [= -> ->]. by rewrite E.
  - intros [Hf [t Ht]]. exists m. split.
    + apply list_elem_of_bind. exists f. rewrite Ht.
      split; [by apply list_elem_of_singleton | done].
    + destruct m; apply (bool_decide_unpack _); vm_compute; exact I.
Qed.

Lemma target_of_remote (f : Field) (row : Attrs) (t : Key) :
  target_of f row = Some t → remote_model f = Some t.1.
Proof.
  unfold target_of. destruct (remote_model f); [|done].
  destruct (column row (name f)); try done. by intros [= <-].
Qed.

Lemma field_relation (ext : list (Model * Field)) (m : Model) (f : Field)
    (row : Attrs) (t : Key) :
  f ∈ fields m → target_of f row = Some t → (m, f) ∈ (relations ++ ext)%list.
Proof.
  intros Hf Ht%target_of_remote. apply elem_of_app. left.
  apply elem_of_relations. by rewrite Ht.
Qed.

Lemma link_target (m : Model) (n : string) (f : Field) (row : Attrs)
    (to : Model) (pk : Z) :
  get_field m n = Some f → remote_model f = Some to →
  column row n = VInt pk →
  f ∈ fields m ∧ target_of f row = Some (to, pk).
Proof.
  intros [Hf <-]%get_field_Some Hto Hcol. split; [done|].
  unfold target_of. by rewrite Hto, Hcol.
Qed.

Lemma on_delete_rules (m : Model) (f : Field) :
  f ∈ fields m →
  (is_one_to_one f = true → handler f = CASCADE)
  ∧ (is_foreign_key f = true →
     handler f = if bool_decide ((m, name f) ∈ cascading_foreign_keys)
                 then CASCADE else PROTECT).
Proof.
  revert f. apply Forall_forall.
  destruct m; apply (bool_decide_unpack _); vm_compute; exact I.
Qed.

Lemma master_data_protected (m : Model) (f : Field) (to : Model) :
  f ∈ fields m →
  remote_model f = Some to →
  to ∈ [VAT; Product; Account; FiscalPosition] →
  m ∈ [Product; Invoice; InvoiceLine] ∨ is_foreign_key f = true →
  handler f = PROTECT.
Proof.
  intros Hf Hto Hmaster Hby. revert f Hf Hto Hby.
  refine (proj1 (Forall_forall
    (λ f, remote_model f = Some to →
          m ∈ [Product; Invoice; InvoiceLine] ∨ is_foreign_key f = true →
          handler f = PROTECT) (fields m)) _).
  repeat (apply elem_of_cons in Hmaster as [->|Hmaster]);
    [| | | | by apply elem_of_nil in Hmaster];
    destruct m; apply (bool_decide_unpack _); vm_compute; exact I.
Qed.

Lemma all_foreign_keys_to_extensions_protect (m : Model) (f : Field)
    (to : Model) :
  f ∈ fields m →
  is_foreign_key f = true →
  remote_model f = Some to →
  to ∈ [CompanyInvoice; ContactInvoice] →
  handler f = PROTECT.
Proof.
  intros Hf Hfk Hto Hext. revert f Hf Hfk Hto.
  refine (proj1 (Forall_forall
    (λ f, is_foreign_key f = true → remote_model f = Some to →
          handler f = PROTECT) (fields m)) _).
  repeat (apply elem_of_cons in Hext as [->|Hext]);
    [| | by apply elem_of_nil in Hext];
    destruct m; apply (bool_decide_unpack _); vm_compute; exact I.
Qed.

(** ** Protected and cascading deletions *)

Section Deletion.
(** The relations declared elsewhere (other applications, the join tables
    of the many-to-many fields, the parent link of InvoiceAR). *)
Variable ext : list (Model * Field).

(** C4. When a VAT, Product, Account or FiscalPosition row is pointed at
    by a row of Product, Invoice or InvoiceLine (or by any row through a
    plain ForeignKey of the three files), deleting it raises
    ProtectedError, which is an IntegrityError, and the database is left
    exactly as it was. *)
Theorem protected_master_data_delete_fails
    (db : DB) (target k : Key) (row : Attrs) (f : Field) :
  target.1 ∈ [VAT; Product; Account; FiscalPosition] →
  db !! k = Some row →
  f ∈ fields k.1 →
  target_of f row = Some target →
  k.1 ∈ [Product; Invoice; InvoiceLine] ∨ is_foreign_key f = true →
  delete (relations ++ ext) target db = (Err ProtectedError, db)
  ∧ is_integrity_error ProtectedError = true.
Proof.
  intros Hmaster Hrow Hf Ht Hby. split; [|reflexivity].
  apply (delete_protected _ _ _ k row f); [done| |  |done].
  - by eapply field_relation.
  - apply (master_data_protected k.1 f target.1); [done| |done..].
    by apply target_of_remote in Ht.
Qed.

(** C5 (amended). For a Company and the CompanyInvoice rows that point at
    it through persons_company, and for a Contact and the ContactInvoice
    rows that point at it through contact_contact:
    - whenever the deletion of the owner goes through, the owner is gone
      and no extension row pointing at it is left: each one that existed
      has been deleted with it;
    - the deletion goes through, and removes the owner and its extension
      rows and nothing else, when these extension rows are the only rows
      that point at the owner and no row points at them;
    - the deletion raises ProtectedError and deletes nothing when some
      row points at one of these extension rows through a plain
      ForeignKey (a Product or an Invoice of the company, say). *)
Theorem extension_deleted_with_owner
    (db : DB) (owner extension : Model) (link : string) (pk : Z) :
  (owner, extension, link)
    ∈ [(Company, CompanyInvoice, "persons_company");
       (Contact, ContactInvoice, "contact_contact")] →
  (∀ n db', delete (relations ++ ext) (owner, pk) db = (Ok n, db') →
     db' !! (owner, pk) = None
     ∧ (∀ k row, db !! k = Some row → k.1 = extension →
                 column row link = VInt pk → db' !! k = None)
     ∧ (∀ k row, db' !! k = Some row → k.1 = extension →
                 column row link ≠ VInt pk))
  ∧ ((∀ k row f, db !! k = Some row → (k.1, f) ∈ ext →
                 target_of f row = None) →
     (∀ k row f, db !! k = Some row → f ∈ fields k.1 →
                 target_of f row = Some (owner, pk) →
                 k.1 = extension ∧ name f = link) →
     (∀ k1 row1, db !! k1 = Some row1 → k1.1 = extension →
                 column row1 link = VInt pk →
        ∀ k row f, db !! k = Some row → f ∈ fields k.1 →
                   target_of f row ≠ Some k1) →
     ∃ n db',
       delete (relations ++ ext) (owner, pk) db = (Ok n, db')
       ∧ db' !! (owner, pk) = None
       ∧ (∀ k row, db !! k = Some row → k.1 = extension →
                   column row link = VInt pk → db' !! k = None)
       ∧ (∀ k row, db !! k = Some row → k ≠ (owner, pk) →
                   ¬ (k.1 = extension ∧ column row link = VInt pk) →
                   db' !! k = Some row))
  ∧ (∀ k1 row1 k2 row2 f,
       db !! k1 = Some row1 → k1.1 = extension →
       column row1 link = VInt pk →
       db !! k2 = Some row2 → f ∈ fields k2.1 → is_foreign_key f = true →
       target_of f row2 = Some k1 →
       delete (relations ++ ext) (owner, pk) db = (Err ProtectedError, db)).
Proof.
  intros Hlink.
  assert (∃ f0, get_field extension link = Some f0
                ∧ remote_model f0 = Some owner
                ∧ handler f0 = CASCADE) as (f0 & Hf0 & Hto0 & Hh0).
  { repeat (apply elem_of_cons in Hlink as [[= -> -> ->]|Hlink]);
      [| |by apply elem_of_nil in Hlink]; by eexists. }
  destruct (get_field_Some _ _ _ Hf0) as [Hf0_in Hf0_name].
  assert (Hpoints : ∀ row, column row link = VInt pk →
            target_of f0 row = Some (owner, pk)).
  { intros row Hcol. unfold target_of. by rewrite Hto0, Hf0_name, Hcol. }
  assert (Hgone : ∀ n db', delete (relations ++ ext) (owner, pk) db = (Ok n, db') →
            ∀ k row, db !! k = Some row → k.1 = extension →
                     column row link = VInt pk →
                     db' !! k = None ∧ db' !! (owner, pk) = None).
  { intros n db' Hdel k row Hrow Hk Hcol.
    eapply (delete_cascades _ _ _ _ _ k row f0); [done..| |by apply Hpoints].
    rewrite Hk. by eapply field_relation, Hpoints. }
  assert (Hpart : ∀ n db', delete (relations ++ ext) (owner, pk) db = (Ok n, db') →
     db' !! (owner, pk) = None
     ∧ (∀ k row, db !! k = Some row → k.1 = extension →
                 column row link = VInt pk → db' !! k = None)
     ∧ (∀ k row, db' !! k = Some row → k.1 = extension →
                 column row link ≠ VInt pk)).
  { intros n db' Hdel.
    destruct (delete_Ok _ _ _ _ _ Hdel) as (s & Hs & _ & Hdb').
    split; [|split].
    - rewrite Hdb'. apply map_lookup_filter_None. right. intros ? _. simpl. tauto.
    - intros k row Hrow Hk Hcol.
      by destruct (Hgone n db' Hdel k row Hrow Hk Hcol).
    - intros k row Hrow' Hk Hcol.
      assert (Hrow : db !! k = Some row).
      { rewrite Hdb' in Hrow'. by apply map_lookup_filter_Some in Hrow' as [? _]. }
      destruct (Hgone n db' Hdel k row Hrow Hk Hcol) as [Hnone _]. congruence. }
  split; [exact Hpart|]. split.
  - intros Hout Hown Hfree.
    set (into := ({[ (owner, pk) ]} : gset Key)
                 ∪ dom (filter (λ kr : Key * Attrs,
                                  kr.1.1 = extension
                                  ∧ column kr.2 link = VInt pk) db)).
    assert (Hin_ext : ∀ k, k ∈ into ↔
              k = (owner, pk)
              ∨ ∃ row, db !! k = Some row ∧ k.1 = extension
                       ∧ column row link = VInt pk).
    { intros k. unfold into. rewrite elem_of_union, elem_of_singleton, elem_of_dom.
      unfold is_Some. setoid_rewrite map_lookup_filter_Some. simpl.
      naive_solver. }
    assert (Hfield : ∀ k row f t, db !! k = Some row →
              (k.1, f) ∈ (relations ++ ext)%list →
              target_of f row = Some t → f ∈ fields k.1).
    { intros k row f t Hrow [Hrel|Hrel]%elem_of_app Ht.
      - by apply elem_of_relations in Hrel as [? _].
      - rewrite (Hout k row f Hrow Hrel) in Ht. done. }
    assert (Hinto : referrers_in (relations ++ ext) db into into).
    { intros k row f t Hrow Hrel Ht Htin.
      pose proof (Hfield k row f t Hrow Hrel Ht) as Hf.
      apply Hin_ext in Htin as [->|(trow & Htrow & Htm & Htcol)].
      - destruct (Hown k row f Hrow Hf Ht) as [Hk Hname].
        assert (f = f0) as ->.
        { apply (get_field_unique extension); [by rewrite <- Hk | done | congruence]. }
        split; [done|]. apply Hin_ext. right. exists row.
        split; [done|]. split; [done|].
        unfold target_of in Ht. rewrite Hto0, Hf0_name in Ht.
        destruct (column row link); try done. by injection Ht as ->.
      - by destruct (Hfree t trow Htrow Htm Htcol k row f Hrow Hf). }
    destruct (delete_within (relations ++ ext) (owner, pk) db into)
      as (s & Hs & Hsub & Hdel); [apply Hin_ext; by left | done |].
    eexists _, _. split; [exact Hdel|].
    destruct (Hpart _ _ Hdel) as (Howner & Hext & _).
    split; [exact Howner|]. split; [exact Hext|].
    intros k row Hrow Hne Hnot. apply map_lookup_filter_Some.
    split; [done|]. simpl. intros Hks. apply Hsub, Hin_ext in Hks.
    destruct Hks as [?|(row' & Hrow' & Hk & Hcol)]; [done|].
    apply Hnot. split; [done|]. congruence.
  - intros k1 row1 k2 row2 f Hrow1 Hk1 Hcol1 Hrow2 Hf Hfk Ht.
    destruct (delete_outcomes (relations ++ ext) (owner, pk) db)
      as [Herr|(s & Hs & Hclosed & _)]; [done|].
    destruct (Hclosed k1 row1 f0 (owner, pk) Hrow1) as [_ Hin1];
      [rewrite Hk1; by eapply field_relation, Hpoints | by apply Hpoints
      | done |].
    destruct (Hclosed k2 row2 f k1 Hrow2
                ltac:(by eapply field_relation) Ht Hin1) as [Hcascade _].
    assert (handler f = PROTECT) as Hprotect.
    { apply (all_foreign_keys_to_extensions_protect k2.1 f extension);
        [done..| apply target_of_remote in Ht; by rewrite Ht, Hk1 |].
      repeat (apply elem_of_cons in Hlink as [[= -> -> ->]|Hlink]);
        [| |by apply elem_of_nil in Hlink]; repeat constructor. }
    congruence.
Qed.

(** C2 (amended). A row points at its target either through a
    OneToOneField or through one of the two fiscal_address foreign keys,
    and then the relation cascades: a deletion of the target that goes
    through deletes the row; or through any other ForeignKey, and then
    the deletion of the target raises ProtectedError and leaves the
    database as it was. *)
Theorem cascade_for_extensions_and_fiscal_address_only
    (db : DB) (target k : Key) (row : Attrs) (f : Field) :
  db !! k = Some row →
  f ∈ fields k.1 →
  target_of f row = Some target →
  if is_one_to_one f
     || bool_decide ((k.1, name f) ∈ cascading_foreign_keys)
  then handler f = CASCADE
       ∧ ∀ n db', delete (relations ++ ext) target db = (Ok n, db') →
                  db' !! k = None
  else is_foreign_key f = true
       ∧ handler f = PROTECT
       ∧ delete (relations ++ ext) target db = (Err ProtectedError, db).
Proof.
  intros Hrow Hf Ht.
  assert (Hrel : (k.1, f) ∈ (relations ++ ext)%list) by by eapply field_relation.
  destruct (on_delete_rules k.1 f Hf) as [Hone Hfk].
  assert (Hkind : is_one_to_one f = true
                  ∨ is_one_to_one f = false ∧ is_foreign_key f = true).
  { apply target_of_remote in Ht. unfold remote_model in Ht.
    unfold is_one_to_one, is_foreign_key. destruct (ftype f); auto; done. }
  assert (Hcascade : handler f = CASCADE →
            ∀ n db', delete (relations ++ ext) target db = (Ok n, db') →
                     db' !! k = None).
  { intros _ n db' Hdel.
    by destruct (delete_cascades _ _ _ _ _ _ _ _ Hdel Hrow Hrel Ht) as (_ & ? & _). }
  destruct Hkind as [Hk|[Hk Hk']]; rewrite Hk; cbn [orb].
  - split; [by apply Hone | by apply Hcascade, Hone].
  - specialize (Hfk Hk').
    destruct (bool_decide ((k.1, name f) ∈ cascading_foreign_keys)).
    + split; [done | by apply Hcascade].
    + split; [done|]. split; [done|].
      by apply (delete_protected _ _ _ k row f).
Qed.

End Deletion.

(** C4 at the VAT rate of the widget. *)
Lemma protected_master_data_delete_fails_witness :
  delete relations (VAT, 1) acme_shop = (Err ProtectedError, acme_shop)
  ∧ is_integrity_error ProtectedError = true.
Proof.
  rewrite <- (app_nil_r relations).
  apply (protected_master_data_delete_fails [] acme_shop (VAT, 1) (Product, 1)
           {[ "invoice_company" := VInt 1; "name" := VStr "widget";
              "vat" := VInt 1 ]}
           (mkField (ForeignKey VAT) "vat" [on_delete PROTECT])).
  - repeat constructor.
  - reflexivity.
  - apply (get_field_Some Product "vat"). reflexivity.
  - reflexivity.
  - left. repeat constructor.
Defined.

(** C5 at a company without products and at an invoicing contact: the
    deletion goes through and takes the extension with it, and leaves
    the other rows. *)
Lemma extension_deleted_with_owner_witness :
  (∃ n db', delete relations (Company, 1) acme = (Ok n, db')
            ∧ db' !! (Company, 1) = None
            ∧ db' !! (CompanyInvoice, 1) = None
            ∧ db' !! (PhysicalAddress, 1) = Some ∅)
  ∧ (∃ n db', delete relations (Contact, 1) registry = (Ok n, db')
              ∧ db' !! (Contact, 1) = None
              ∧ db' !! (ContactInvoice, 1) = None
              ∧ db' !! (Contact, 2) = Some ∅).
Proof.
  rewrite <- (app_nil_r relations). split.
  - destruct (extension_deleted_with_owner [] acme Company CompanyInvoice
                "persons_company" 1 ltac:(repeat constructor))
      as (_ & Hthrough & _).
    destruct Hthrough as (n & db' & Hdel & Howner & Hext & Hkept).
    + intros k row f _ Hf. by apply elem_of_nil in Hf.
    + intros k row f Hrow.
      assert (Hall : map_Forall (λ (k : Key) (row : Attrs),
                Forall (λ f, target_of f row = Some (Company, 1) →
                             k.1 = CompanyInvoice
                             ∧ name f = "persons_company")
                  (fields k.1)) acme)
        by (apply (bool_decide_unpack _); vm_compute; exact I).
      specialize (Hall k row Hrow). rewrite Forall_forall in Hall.
      apply Hall.
    + intros k1 row1 Hrow1 Hk1 Hcol1 k row f Hrow.
      assert (Hall : map_Forall (λ (k1 : Key) (row1 : Attrs),
                k1.1 = CompanyInvoice →
                column row1 "persons_company" = VInt 1 →
                map_Forall (λ (k : Key) (row : Attrs),
                  Forall (λ f, target_of f row ≠ Some k1) (fields k.1))
                  acme) acme)
        by (apply (bool_decide_unpack _); vm_compute; exact I).
      specialize (Hall k1 row1 Hrow1 Hk1 Hcol1 k row Hrow).
      rewrite Forall_forall in Hall. apply Hall.
    + exists n, db'. split; [exact Hdel|]. split; [exact Howner|]. split.
      * apply (Hext (CompanyInvoice, 1)
                 {[ "persons_company" := VInt 1; "legal_name" := VStr "ACME";
                    "fiscal_address" := VInt 1 ]}); reflexivity.
      * apply Hkept; [reflexivity | discriminate |].
        intros [Hm _]. discriminate.
  - destruct (extension_deleted_with_owner [] registry Contact ContactInvoice
                "contact_contact" 1 ltac:(repeat constructor))
      as (_ & Hthrough & _).
    destruct Hthrough as (n & db' & Hdel & Howner & Hext & Hkept).
    + intros k row f _ Hf. by apply elem_of_nil in Hf.
    + intros k row f Hrow.
      assert (Hall : map_Forall (λ (k : Key) (row : Attrs),
                Forall (λ f, target_of f row = Some (Contact, 1) →
                             k.1 = ContactInvoice
                             ∧ name f = "contact_contact")
                  (fields k.1)) registry)
        by (apply (bool_decide_unpack _); vm_compute; exact I).
      specialize (Hall k row Hrow). rewrite Forall_forall in Hall.
      apply Hall.
    + intros k1 row1 Hrow1 Hk1 Hcol1 k row f Hrow.
      assert (Hall : map_Forall (λ (k1 : Key) (row1 : Attrs),
                k1.1 = ContactInvoice →
                column row1 "contact_contact" = VInt 1 →
                map_Forall (λ (k : Key) (row : Attrs),
                  Forall (λ f, target_of f row ≠ Some k1) (fields k.1))
                  registry) registry)
        by (apply (bool_decide_unpack _); vm_compute; exact I).
      specialize (Hall k1 row1 Hrow1 Hk1 Hcol1 k row Hrow).
      rewrite Forall_forall in Hall. apply Hall.
    + exists n, db'. split; [exact Hdel|]. split; [exact Howner|]. split.
      * apply (Hext (ContactInvoice, 1)
                 (init ContactInvoice
                    {[ "contact_contact" := VInt 1;
                       "legal_name" := VStr "Initech";
                       "fiscal_position" := VInt 1;
                       "fiscal_address" := VInt 1 ]})); reflexivity.
      * apply Hkept; [reflexivity | discriminate |].
        intros [Hm _]. discriminate.
Defined.

(** A company that already sells a product cannot be deleted: the
    cascade reaches its CompanyInvoice, which the product protects, and
    nothing is deleted. *)
Lemma company_with_products_is_protected :
  delete relations (Company, 1) acme_shop = (Err ProtectedError, acme_shop).
Proof.
  assert (Hraised : (delete relations (Company, 1) acme_shop).1
                    = Err ProtectedError) by (vm_compute; reflexivity).
  destruct (delete_outcomes relations (Company, 1) acme_shop)
    as [Herr|(s & _ & _ & Hok)]; [exact Herr|].
  rewrite Hok in Hraised. discriminate.
Qed.

(** C5 as stated fails: the company of acme_shop has a CompanyInvoice,
    yet deleting the company does not delete it: the widget protects
    the CompanyInvoice, the deletion raises and every row stays. *)
Lemma company_in_use_keeps_its_extension :
  ¬ (∀ (db : DB) (pk : Z) (owner : Attrs) (k : Key) (row : Attrs),
       db !! (Company, pk) = Some owner →
       db !! k = Some row → k.1 = CompanyInvoice →
       column row "persons_company" = VInt pk →
       (delete relations (Company, pk) db).2 !! k = None).
Proof.
  intros Hclaim.
  specialize (Hclaim acme_shop 1 ∅ (CompanyInvoice, 1)
                {[ "persons_company" := VInt 1; "legal_name" := VStr "ACME";
                   "fiscal_address" := VInt 1 ]}
                eq_refl eq_refl eq_refl eq_refl).
  rewrite company_with_products_is_protected in Hclaim.
  vm_compute in Hclaim. discriminate.
Qed.

(** C2 as stated fails: CompanyInvoice.fiscal_address is a plain
    ForeignKey, and deleting the address it points at deletes the
    CompanyInvoice instead of being refused. *)
Lemma fiscal_address_foreign_key_cascades :
  ¬ (∀ (db : DB) (target k : Key) (row : Attrs) (f : Field),
       db !! k = Some row → f ∈ fields k.1 → is_foreign_key f = true →
       target_of f row = Some target →
       (delete relations target db).1 = Err ProtectedError
       ∧ (delete relations target db).2 !! k = Some row).
Proof.
  intros Hclaim.
  destruct (Hclaim acme (PhysicalAddress, 1) (CompanyInvoice, 1)
              {[ "persons_company" := VInt 1; "legal_name" := VStr "ACME";
                 "fiscal_address" := VInt 1 ]}
              (mkField (ForeignKey PhysicalAddress) "fiscal_address"
                 [on_delete CASCADE; blank true; null true]))
    as [Hraised _].
  - reflexivity.
  - apply (get_field_Some CompanyInvoice "fiscal_address"). reflexivity.
  - reflexivity.
  - reflexivity.
  - vm_compute in Hraised. discriminate.
Qed.

(** C2 (amended) at both kinds of relation: the address of the company
    cascades, the VAT rate of the widget is protected. *)
Lemma cascade_for_extensions_and_fiscal_address_only_witness :
  (delete relations (PhysicalAddress, 1) acme).2 !! (CompanyInvoice, 1) = None
  ∧ delete relations (VAT, 1) acme_shop = (Err ProtectedError, acme_shop).
Proof.
  rewrite <- (app_nil_r relations). split.
  - destruct (cascade_for_extensions_and_fiscal_address_only [] acme
                (PhysicalAddress, 1) (CompanyInvoice, 1)
                {[ "persons_company" := VInt 1; "legal_name" := VStr "ACME";
                   "fiscal_address" := VInt 1 ]}
                (mkField (ForeignKey PhysicalAddress) "fiscal_address"
                   [on_delete CASCADE; blank true; null true]))
      as [_ Hgone].
    + reflexivity.
    + apply (get_field_Some CompanyInvoice "fiscal_address"). reflexivity.
    + reflexivity.
    + apply (Hgone 2%nat). vm_compute. reflexivity.
  - destruct (cascade_for_extensions_and_fiscal_address_only [] acme_shop
                (VAT, 1) (Product, 1)
                {[ "invoice_company" := VInt 1; "name" := VStr "widget";
                   "vat" := VInt 1 ]}
                (mkField (ForeignKey VAT) "vat" [on_delete PROTECT]))
      as (_ & _ & Hrefused).
    + reflexivity.
    + apply (get_field_Some Product "vat"). reflexivity.
    + reflexivity.
    + exact Hrefused.
Defined.

(** ** More on field validation *)

Lemma clean_Ok (today : Z) (f : Field) (v w : Value) :
  clean today f v = Ok w ↔
  to_python (ftype f) v = Ok w ∧ validate f w = Ok ()
  ∧ run_validators today f w = Ok ().
Proof.
  unfold clean. split.
  - destruct (to_python (ftype f) v) as [v'|]; simpl; [|done].
    destruct (validate f v') as [[]|] eqn:Hv; simpl; [|done].
    destruct (run_validators today f v') as [[]|] eqn:Hr; simpl; [|done].
    by intros [= <-].
  - intros (-> & Hv & Hr). simpl. rewrite Hv. simpl. by rewrite Hr.
Qed.

Lemma run_validators_Ok (today : Z) (f : Field) (v : Value) :
  run_validators today f v = Ok () ↔
  empty_values v = true
  ∨ Forall (λ vd : Validator, vd today v = Ok ()) (Field_all_validators f).
Proof.
  unfold run_validators. destruct (empty_values v); [by intuition|].
  induction (Field_all_validators f) as [|vd vds IH]; simpl.
  - split; [by right | done].
  - destruct (vd today v) as [[]|e] eqn:E; simpl.
    + rewrite IH. split.
      * intros [?|?]; [done|]. right. by constructor.
      * intros [?|H]; [done|]. right. by inversion H.
    + split; [done|]. intros [?|H]; [done|]. inversion H. congruence.
Qed.

(** A text without continuation bytes has as many characters as bytes. *)
Lemma len_ascii (s : string) :
  forallb (λ c, negb (continuation_byte c)) (list_ascii_of_string s) = true →
  len s = String.length s.
Proof.
  induction s as [|c s IH]; [done|]. simpl.
  intros [Hc Hs]%andb_true_iff. apply negb_true_iff in Hc.
  rewrite Hc. f_equal. by apply IH.
Qed.

Lemma slug_char_not_continuation (c : ascii) :
  slug_char c = true → continuation_byte c = false.
Proof.
  destruct c as [[] [] [] [] [] [] [] []]; vm_compute; congruence.
Qed.

(** X1. Every CharField and SlugField of the three files declares a
    max_length, and cleaning refuses any string of more characters
    (code points, as len counts them) than it. *)
Theorem max_length_enforced
    (today : Z) (m : Model) (f : Field) (s : string) :
  f ∈ fields m →
  ftype f = CharField ∨ ftype f = SlugField →
  ∃ n, Field_max_length f = Some n
       ∧ ((n < len s)%nat → is_ok (clean today f (VStr s)) = false).
Proof.
  intros Hf Ht.
  assert (∃ n, Field_max_length f = Some n) as [n Hn].
  { revert f Hf Ht.
    refine (proj1 (Forall_forall
      (λ f, ftype f = CharField ∨ ftype f = SlugField →
            ∃ n, Field_max_length f = Some n) (fields m)) _).
    destruct m; vm_compute; repeat constructor; intros [?|?];
      try discriminate; by eexists. }
  exists n. split; [done|]. intros Hlen.
  destruct (clean today f (VStr s)) as [w|] eqn:E; [|done].
  apply clean_Ok in E as (Hp & _ & Hr).
  assert (w = VStr s) as ->.
  { destruct Ht as [Ht|Ht]; rewrite Ht in Hp; by injection Hp. }
  apply run_validators_Ok in Hr as [He|Hall].
  { simpl in He. apply bool_decide_eq_true in He. subst s. simpl in Hlen. lia. }
  assert (MaxLengthValidator n ∈ Field_all_validators f) as Hin.
  { unfold Field_all_validators. rewrite Hn. simpl.
    destruct Ht as [-> | ->]; set_solver. }
  rewrite Forall_forall in Hall. specialize (Hall _ Hin).
  unfold MaxLengthValidator in Hall.
  destruct (decide (n < len s)%nat); [done | lia].
Qed.

(** X1 at an identification number of fifteen digits, one more than
    ContactInvoiceAR.id_number allows; fourteen letters that take two
    bytes each are fourteen characters and pass. *)
Lemma max_length_enforced_witness :
  ∃ n, n = 14%nat
       ∧ is_ok (clean 0 (mkField CharField "id_number"
                           [max_length 14; default (VStr ""); blank true])
                  (VStr "201234567890123")) = false
       ∧ len "ññññññññññññññ" = 14%nat
       ∧ String.length "ññññññññññññññ" = 28%nat
       ∧ is_ok (clean 0 (mkField CharField "id_number"
                           [max_length 14; default (VStr ""); blank true])
                  (VStr "ññññññññññññññ")) = true.
Proof.
  destruct (max_length_enforced 0 ContactInvoiceAR
              (mkField CharField "id_number"
                 [max_length 14; default (VStr ""); blank true])
              "201234567890123") as (n & Hn & Hlong).
  - apply (get_field_Some ContactInvoiceAR "id_number"). reflexivity.
  - by left.
  - injection Hn as <-. exists 14%nat. split; [reflexivity|].
    split; [apply Hlong; vm_compute; lia|].
    split; [reflexivity|]. split; reflexivity.
Defined.

(** X2. A SlugField of the three files cleans a string only when it is
    made of letters, digits, hyphens and underscores and has at most 15
    characters. *)
Theorem slug_codes_well_formed
    (today : Z) (m : Model) (f : Field) (s : string) (w : Value) :
  f ∈ fields m →
  ftype f = SlugField →
  clean today f (VStr s) = Ok w →
  w = VStr s
  ∧ forallb slug_char (list_ascii_of_string s) = true
  ∧ (String.length s ≤ 15)%nat.
Proof.
  intros Hf Ht Hclean.
  assert (Field_max_length f = Some 15%nat ∧ Field_validators f = [])
    as [Hn Hv].
  { clear Hclean. revert f Hf Ht.
    refine (proj1 (Forall_forall
      (λ f, ftype f = SlugField →
            Field_max_length f = Some 15%nat ∧ Field_validators f = [])
      (fields m)) _).
    destruct m; vm_compute; repeat constructor; discriminate. }
  apply clean_Ok in Hclean as (Hp & _ & Hr).
  rewrite Ht in Hp. injection Hp as <-. split; [done|].
  apply run_validators_Ok in Hr as [He|Hall].
  { simpl in He. apply bool_decide_eq_true in He. subst s.
    split; [reflexivity | simpl; lia]. }
  unfold Field_all_validators in Hall. rewrite Ht, Hn, Hv in Hall. simpl in Hall.
  inversion Hall as [|? ? Hslug Hrest]; subst.
  inversion Hrest as [|? ? Hlen _]; subst.
  assert (Hchars : forallb slug_char (list_ascii_of_string s) = true).
  { unfold validate_slug in Hslug.
    destruct (forallb slug_char (list_ascii_of_string s)); [done|].
    simpl in Hslug. done. }
  split; [exact Hchars|].
  rewrite <- len_ascii.
  - unfold MaxLengthValidator in Hlen.
    destruct (decide (15 < len s)%nat); [done | lia].
  - rewrite forallb_forall in Hchars |- *. intros c Hc.
    by rewrite (slug_char_not_continuation c (Hchars c Hc)).
Qed.

(** X2 at the code 'RI-01' of a fiscal position. *)
Lemma slug_codes_well_formed_witness :
  forallb slug_char (list_ascii_of_string "RI-01") = true
  ∧ (String.length "RI-01" ≤ 15)%nat.
Proof.
  destruct (slug_codes_well_formed 0 FiscalPosition
              (mkField SlugField "code"
                 [max_length 15; default (VStr ""); blank true;
                  help_text "Some local official electronic systems handle specific codes."])
              "RI-01" (VStr "RI-01")) as (_ & Hchars & Hlen).
  - apply (get_field_Some FiscalPosition "code"). reflexivity.
  - reflexivity.
  - vm_compute. reflexivity.
  - exact (conj Hchars Hlen).
Defined.

(** X3. Product.current_price and InvoiceLine.price_sold are optional
    and never negative: cleaning returns either None or a number that is
    at least 0, a negative number is refused with code 'min_value', and
    a record that leaves the price empty is not reported for it. *)
Theorem prices_not_negative
    (today : Z) (m : Model) (n : string) (v w : Value) (inst : Attrs) :
  (m, n) ∈ [(Product, "current_price"); (InvoiceLine, "price_sold")] →
  (clean_field today m n v = Ok w →
   w = VNone ∨ ∃ q, w = VNum q ∧ (0 ≤ q)%Qc)
  ∧ (∀ q, (q < 0)%Qc →
          clean_field today m n (VNum q) = Err (ValidationError "min_value"))
  ∧ (column inst n = VNone → n ∉ (clean_fields today m inst).*1).
Proof.
  intros Hm.
  assert (∃ f, get_field m n = Some f ∧ ftype f = DecimalField
               ∧ Field_choices f = None ∧ Field_null f = true
               ∧ Field_blank f = true
               ∧ Field_validators f = [MinValueValidator 0])
    as (f & Hf & Ht & Hc & Hnull & Hblank & Hv).
  { repeat (apply elem_of_cons in Hm as [[= -> ->]|Hm]);
      [| | by apply elem_of_nil in Hm]; by eexists. }
  unfold clean_field. rewrite Hf.
  assert (Hnum : ∀ q, clean today f (VNum q)
            = if decide (q < 0)%Qc then Err (ValidationError "min_value")
              else Ok (VNum q)).
  { intros q. unfold clean, validate, run_validators, Field_all_validators.
    rewrite Ht, Hc, Hnull, Hblank, Hv. simpl.
    unfold MinValueValidator. simpl. by destruct (decide (q < 0)%Qc). }
  split; [|split].
  - destruct v as [|s|z|q|d|b].
    + intros Hclean. apply clean_Ok in Hclean as ([= <-] & _). by left.
    + unfold clean. by rewrite Ht.
    + intros Hclean. right. exists (Qc_of_Z z).
      assert (clean today f (VInt z) = clean today f (VNum (Qc_of_Z z))) as Heq
        by (unfold clean; by rewrite Ht).
      rewrite Heq, Hnum in Hclean.
      destruct (decide (Qc_of_Z z < 0)%Qc) as [|Hge]; [done|].
      injection Hclean as <-. split; [done | by apply Qcnot_lt_le].
    + rewrite Hnum. destruct (decide (q < 0)%Qc) as [|Hge]; [done|].
      intros [= <-]. right. exists q. split; [done | by apply Qcnot_lt_le].
    + unfold clean. by rewrite Ht.
    + unfold clean. by rewrite Ht.
  - intros q Hq. by rewrite Hnum, decide_True.
  - intros Hcol ([n' e] & Hn & Hin)%list_elem_of_fmap. simpl in Hn. subst n'.
    apply elem_of_clean_fields in Hin as (g & Hg & Hgname & Hskip & _).
    destruct (get_field_Some _ _ _ Hf) as [Hin Hname].
    assert (g = f) as -> by (apply (get_field_unique m); congruence).
    by rewrite Hcol, Hblank in Hskip.
Qed.

(** X3 at a product priced at minus one. *)
Lemma prices_not_negative_witness :
  clean_field 0 Product "current_price" (VNum (-1))
  = Err (ValidationError "min_value").
Proof.
  destruct (prices_not_negative 0 Product "current_price" VNone VNone ∅)
    as (_ & Hneg & _); [repeat constructor|].
  apply Hneg. reflexivity.
Defined.

(** X4. InvoiceType.invoice_type_class is cleaned exactly for 'B', 'D'
    and 'C' (Bill, Debit, Credit) and PointOfSaleAR.point_of_sale_type
    exactly for 'C', 'F', 'W' and 'L'; ContactInvoiceAR.id_type, which is
    optional, is cleaned exactly for 'D', 'T', 'L', None and the empty
    string. *)
Theorem other_choice_fields (today : Z) (v : Value) :
  (is_ok (clean_field today InvoiceType "invoice_type_class" v) = true
   ↔ v ∈ [VStr "B"; VStr "D"; VStr "C"])
  ∧ (is_ok (clean_field today PointOfSaleAR "point_of_sale_type" v) = true
     ↔ v ∈ [VStr "C"; VStr "F"; VStr "W"; VStr "L"])
  ∧ (is_ok (clean_field today ContactInvoiceAR "id_type" v) = true
     ↔ v ∈ [VNone; VStr ""; VStr "D"; VStr "T"; VStr "L"]).
Proof.
  split; [|split].
  - unfold clean_field. simpl.
    erewrite clean_choice_field; [|done..|repeat constructor; simpl; done || lia].
    rewrite in_choices_spec. split.
    + intros (key & label & -> & Hin).
      repeat (apply elem_of_cons in Hin as [[= -> ->]|Hin]);
        [| | | by apply elem_of_nil in Hin]; repeat constructor.
    + intros Hin. repeat (apply elem_of_cons in Hin as [->|Hin]);
        [| | | by apply elem_of_nil in Hin];
        eexists _, _; (split; [reflexivity|]); repeat constructor.
  - unfold clean_field. simpl.
    erewrite clean_choice_field; [|done..|repeat constructor; simpl; done || lia].
    rewrite in_choices_spec. split.
    + intros (key & label & -> & Hin).
      repeat (apply elem_of_cons in Hin as [[= -> ->]|Hin]);
        [| | | | by apply elem_of_nil in Hin]; repeat constructor.
    + intros Hin. repeat (apply elem_of_cons in Hin as [->|Hin]);
        [| | | | by apply elem_of_nil in Hin];
        eexists _, _; (split; [reflexivity|]); repeat constructor.
  - split.
    + destruct v as [|s|z|q|d|b]; try (vm_compute; discriminate);
        [repeat constructor|].
      intros Hok.
      destruct (decide (s = "")) as [->|Hne]; [repeat constructor|].
      destruct (in_choices invoice_ar.ID_TYPES (VStr s)) eqn:E.
      * apply in_choices_spec in E as (key & label & [= ->] & Hin).
        repeat (apply elem_of_cons in Hin as [[= -> ->]|Hin]);
          [| | | by apply elem_of_nil in Hin]; repeat constructor.
      * unfold clean_field in Hok. simpl in Hok.
        unfold clean, validate in Hok. simpl in Hok.
        rewrite (bool_decide_eq_false_2 _ Hne) in Hok. simpl in Hok.
        by rewrite E in Hok.
    + intros Hin. repeat (apply elem_of_cons in Hin as [->|Hin]);
        [| | | | | by apply elem_of_nil in Hin]; vm_compute; reflexivity.
Qed.

(** X5. Every default declared in the three files is acceptable to the
    field that declares it: cleaning the default succeeds, or the default
    is an empty value of a blank=True field, which clean_fields skips. *)
Theorem declared_defaults_are_valid
    (today : Z) (m : Model) (f : Field) (v : Value) :
  f ∈ fields m →
  Field_default f = Some v →
  is_ok (clean today f v) = true
  ∨ (Field_blank f = true ∧ empty_values v = true).
Proof.
  intros Hf Hd.
  assert (Hall : forallb
            (λ f, match Field_default f with
                  | Some v => is_ok (clean today f v)
                              || (Field_blank f && empty_values v)
                  | None => true
                  end) (fields m) = true)
    by (destruct m; vm_compute; reflexivity).
  rewrite forallb_forall in Hall. apply list_elem_of_In, Hall in Hf.
  rewrite Hd in Hf. apply orb_true_iff in Hf as [?|Hf]; [by left|].
  right. by apply andb_true_iff in Hf.
Qed.

(** X5 at the default type of a point of sale, 'W' (Webservice). *)
Lemma declared_defaults_are_valid_witness :
  is_ok (clean_field 0 PointOfSaleAR "point_of_sale_type" (VStr "W")) = true.
Proof.
  destruct (declared_defaults_are_valid 0 PointOfSaleAR
              (mkField CharField "point_of_sale_type"
                 [max_length 1; choices invoice_ar.POINTOFSALE_TYPES;
                  default (VStr invoice_ar.POINTOFSALE_TYPE_WEBSERVICE)])
              (VStr "W")) as [Hok|[_ Hempty]].
  - apply (get_field_Some PointOfSaleAR "point_of_sale_type"). reflexivity.
  - reflexivity.
  - exact Hok.
  - discriminate Hempty.
Defined.

(** X6. InvoiceLine.discount, Invoice.number and the product_discount of
    QuotationLine and SaleLine are blank=True without null=True: a record
    that holds None there is not reported by clean_fields for the field,
    yet its INSERT is refused with IntegrityError and nothing is
    stored. *)
Theorem blank_without_null_refused_at_insert
    (today : Z) (m : Model) (n : string) (kw : Attrs) (db : DB) :
  (m, n) ∈ [(InvoiceLine, "discount"); (Invoice, "number");
            (QuotationLine, "product_discount");
            (SaleLine, "product_discount")] →
  kw !! n = Some VNone →
  (n ∉ (clean_fields today m (init m kw)).*1)
  ∧ create m kw db = (Err IntegrityError, db).
Proof.
  intros Hm Hkw.
  assert (∃ f, get_field m n = Some f ∧ Field_null f = false
               ∧ Field_blank f = true) as (f & Hf & Hnull & Hblank).
  { repeat (apply elem_of_cons in Hm as [[= -> ->]|Hm]);
      [| | | | by apply elem_of_nil in Hm]; by eexists. }
  destruct (get_field_Some _ _ _ Hf) as [Hin Hname].
  assert (Hcol : column (init m kw) n = VNone)
    by (by rewrite (column_init m kw n f Hf), Hkw).
  split.
  - intros ([n' e] & Hn & Hin')%list_elem_of_fmap. simpl in Hn. subst n'.
    apply elem_of_clean_fields in Hin' as (g & Hg & Hgname & Hskip & _).
    assert (g = f) as -> by (apply (get_field_unique m); congruence).
    by rewrite Hcol, Hblank in Hskip.
  - destruct (create m kw db).1 as [pk|e] eqn:E;
      [|exact (create_Err_db _ _ _ _ E)].
    apply create_Ok in E as (E & _). rewrite not_null_violated_false in E.
    destruct (E f Hin Hnull). by rewrite Hname.
Qed.

(** X6 at an invoice line of the widget with its discount set to None. *)
Lemma blank_without_null_refused_at_insert_witness :
  let line : Attrs := {[ "product" := VInt 1; "discount" := VNone ]} in
  clean_fields 0 InvoiceLine (init InvoiceLine line) = []
  ∧ create InvoiceLine line acme_shop = (Err IntegrityError, acme_shop).
Proof.
  intros line. split; [vm_compute; reflexivity|].
  apply (blank_without_null_refused_at_insert 0 InvoiceLine "discount" line
           acme_shop); [repeat constructor | reflexivity].
Defined.

(** X7. A required CharField without a default that is left out of the
    keywords is instantiated to the empty string, not to None: the
    NOT NULL constraint has nothing against the column, while
    clean_fields reports it as 'blank'. *)
Theorem omitted_text_is_empty_string
    (today : Z) (m : Model) (f : Field) (kw : Attrs) :
  f ∈ fields m →
  ftype f = CharField →
  Field_default f = None →
  Field_null f = false →
  Field_blank f = false →
  kw !! name f = None →
  column (init m kw) (name f) = VStr ""
  ∧ (name f, ValidationError "blank") ∈ clean_fields today m (init m kw).
Proof.
  intros Hf Ht Hd Hnull Hblank Hkw.
  assert (Hgf : get_field m (name f) = Some f).
  { destruct (get_field m (name f)) as [g|] eqn:E.
    - destruct (get_field_Some _ _ _ E) as [Hg Hname].
      f_equal. by apply (get_field_unique m).
    - apply get_field_None in E. destruct E.
      apply list_elem_of_fmap. by exists f. }
  assert (Hcol : column (init m kw) (name f) = VStr "").
  { rewrite (column_init m kw _ f Hgf), Hkw. simpl.
    unfold get_default. by rewrite Hd, Ht, Hnull. }
  split; [done|]. apply elem_of_clean_fields. exists f.
  rewrite Hcol, Hblank. repeat split; [done..|].
  unfold clean, validate. rewrite Ht, Hnull, Hblank. simpl.
  by destruct (Field_choices f).
Qed.

(** X7 at a company created without its legal name. *)
Lemma omitted_text_is_empty_string_witness :
  let kw : Attrs := {[ "persons_company" := VInt 3 ]} in
  column (init CompanyInvoice kw) "legal_name" = VStr ""
  ∧ (create CompanyInvoice kw registry).1 = Ok 3
  ∧ ("legal_name", ValidationError "blank")
      ∈ clean_fields 0 CompanyInvoice (init CompanyInvoice kw).
Proof.
  intros kw.
  destruct (omitted_text_is_empty_string 0 CompanyInvoice
              (mkField CharField "legal_name" [max_length 300]) kw)
    as [Hcol Hblank]; try reflexivity.
  - apply (get_field_Some CompanyInvoice "legal_name"). reflexivity.
  - split; [exact Hcol|]. split; [vm_compute; reflexivity | exact Hblank].
Defined.

(** ** More on inserting rows *)

Lemma unique_violated_mono (m : Model) (obj : Attrs) (db1 db2 : DB) :
  db1 ⊆ db2 → unique_violated m obj db1 → unique_violated m obj db2.
Proof.
  unfold unique_violated. rewrite !Exists_exists.
  intros Hsub (cols & Hcols & k & row & Hrow & Hk). exists cols.
  split; [done|]. exists k, row. split; [|done]. by eapply lookup_weaken.
Qed.


Lemma unique_column_constraint (m : Model) (f : Field) :
  f ∈ fields m → Field_unique f = true → [name f] ∈ unique_constraints m.
Proof.
  intros Hf Hu. unfold unique_constraints. apply elem_of_app. left.
  apply list_elem_of_fmap. exists f. split; [done|].
  by apply list_elem_of_filter.
Qed.


(** X8. Every column declared unique=True and every OneToOneField is
    unique in its table: once a row is stored, a second row holding the
    same non-NULL value in that column is refused with IntegrityError and
    nothing is stored.  So a Company has at most one CompanyInvoice, a
    Contact at most one ContactInvoice, a Product at most one
    ProductSales, and no two fiscal positions, VAT rates or concept
    types share a name. *)
Theorem unique_columns_enforced
    (m : Model) (f : Field) (kw1 kw2 : Attrs) (db : DB) (pk1 : Z) :
  f ∈ fields m →
  Field_unique f = true →
  (create m kw1 db).1 = Ok pk1 →
  column (init m kw1) (name f) ≠ VNone →
  column (init m kw2) (name f) = column (init m kw1) (name f) →
  create m kw2 (create m kw1 db).2 = (Err IntegrityError, (create m kw1 db).2).
Proof.
  intros Hf Hu Hok Hnn Heq.
  apply (create_duplicate _ _ _ _ pk1 [name f]); [done| | |].
  - by apply unique_column_constraint.
  - by intros c ->%list_elem_of_singleton.
  - by intros c ->%list_elem_of_singleton.
Qed.

(** X8 at a second invoicing extension for the third company. *)
Lemma unique_columns_enforced_witness :
  let first : Attrs :=
    {[ "persons_company" := VInt 3; "legal_name" := VStr "Umbrella" ]} in
  let second : Attrs :=
    {[ "persons_company" := VInt 3; "legal_name" := VStr "Umbrella 2" ]} in
  let db1 := (create CompanyInvoice first registry).2 in
  (create CompanyInvoice first registry).1 = Ok 3
  ∧ create CompanyInvoice second db1 = (Err IntegrityError, db1).
Proof.
  intros first second db1.
  assert (Hok : (create CompanyInvoice first registry).1 = Ok 3)
    by (vm_compute; reflexivity).
  split; [exact Hok|].
  apply (unique_columns_enforced CompanyInvoice
           (mkField (OneToOneField Company) "persons_company"
              [on_delete CASCADE]) first second registry 3).
  - apply (get_field_Some CompanyInvoice "persons_company"). reflexivity.
  - reflexivity.
  - exact Hok.
  - vm_compute. discriminate.
  - reflexivity.
Defined.

(** X9. Product categories are unique by name within a company: once a
    category is stored, another one of the same persons_company with the
    same name is refused with IntegrityError, while among well-typed
    rows (company keys are integers, stored as they are) one with the
    same name for another company, acceptable before, is accepted after
    as well. *)
Theorem category_name_unique_per_company
    (kw1 kw2 : Attrs) (db : DB) (pk1 : Z) :
  (create ProductCategory kw1 db).1 = Ok pk1 →
  column (init ProductCategory kw2) "name"
  = column (init ProductCategory kw1) "name" →
  let db1 := (create ProductCategory kw1 db).2 in
  (column (init ProductCategory kw2) "persons_company"
   = column (init ProductCategory kw1) "persons_company" →
   create ProductCategory kw2 db1 = (Err IntegrityError, db1))
  ∧ (well_typed_db db = true →
     well_typed ProductCategory kw1 = true →
     well_typed ProductCategory kw2 = true →
     ∀ company1 company2 : Z,
     column (init ProductCategory kw1) "persons_company" = VInt company1 →
     column (init ProductCategory kw2) "persons_company" = VInt company2 →
     company2 ≠ company1 →
     ∀ pk2, (create ProductCategory kw2 db).1 = Ok pk2 →
     ∃ pk, (create ProductCategory kw2 db1).1 = Ok pk).
Proof.
  intros Hok Hname db1. split.
  - intros Hcompany.
    apply (create_duplicate _ _ _ _ pk1 ["persons_company"; "name"]);
      [done | vm_compute; repeat constructor | |];
      intros c Hc; repeat (apply elem_of_cons in Hc as [->|Hc]);
        try (by apply elem_of_nil in Hc); try done;
        by eapply created_not_null.
  - intros _ _ _ company1 company2 Hc1 Hc2 Hcompany pk2 Hok2.
    apply (create_distinct _ _ _ _ pk1 pk2); [done..|].
    intros cols Hcols. vm_compute in Hcols.
    apply list_elem_of_singleton in Hcols as ->.
    exists "persons_company". split; [repeat constructor|].
    rewrite Hc1, Hc2. congruence.
Qed.

(** X9 at the category 'tools' of companies 1 and 2. *)
Lemma category_name_unique_per_company_witness :
  let tools (c : Z) : Attrs :=
    {[ "persons_company" := VInt c; "name" := VStr "tools" ]} in
  let db1 := (create ProductCategory (tools 1) registry).2 in
  (create ProductCategory (tools 1) registry).1 = Ok 1
  ∧ create ProductCategory (tools 1) db1 = (Err IntegrityError, db1)
  ∧ ∃ pk, (create ProductCategory (tools 2) db1).1 = Ok pk.
Proof.
  intros tools db1.
  assert (Hok : (create ProductCategory (tools 1) registry).1 = Ok 1)
    by (vm_compute; reflexivity).
  split; [exact Hok|]. split.
  - destruct (category_name_unique_per_company (tools 1) (tools 1) registry 1)
      as [Hsame _]; [exact Hok | reflexivity |].
    apply Hsame. reflexivity.
  - destruct (category_name_unique_per_company (tools 1) (tools 2) registry 1)
      as [_ Hother]; [exact Hok | vm_compute; reflexivity |].
    apply (Hother ltac:(vm_compute; reflexivity) ltac:(vm_compute; reflexivity)
             ltac:(vm_compute; reflexivity) 1 2
             ltac:(vm_compute; reflexivity) ltac:(vm_compute; reflexivity)
             ltac:(discriminate) 1).
    vm_compute. reflexivity.
Defined.



Section Integrity.
Variable ext : list (Model * Field).

(** X13. Deletion keeps the database consistent: what remains after a
    deletion, whether it went through or was refused, still satisfies
    the NOT NULL and unique constraints and holds no reference to a row
    that is gone. *)
Theorem delete_keeps_consistent (k : Key) (db : DB) :
  consistent db → consistent (delete (relations ++ ext) k db).2.
Proof.
  intros Hdb.
  destruct (delete_outcomes (relations ++ ext) k db)
    as [Herr|(s & Hk & Hs & Hok)]; [by rewrite Herr|].
  rewrite Hok. simpl. set (db' := filter (λ kr : Key * Attrs, kr.1 ∉ s) db).
  assert (Hsub : db' ⊆ db) by apply map_filter_subseteq.
  intros k' row Hrow'.
  assert (Hrow : db !! k' = Some row) by (by eapply lookup_weaken).
  destruct (Hdb k' row Hrow) as (Hnn & Hfk & Huniq).
  split; [done|]. split.
  - apply foreign_key_violated_false. intros f t Hf Ht.
    rewrite foreign_key_violated_false in Hfk.
    apply elem_of_dom.
    eapply (delete_referential_integrity (relations ++ ext) k db);
      [by rewrite Hok | exact Hrow' | by eapply field_relation | exact Ht |].
    apply elem_of_dom. by apply (Hfk f t).
  - intros Hv. apply Huniq. revert Hv. apply unique_violated_mono.
    by apply delete_mono.
Qed.

End Integrity.

(** X13 at the registry: it is consistent, and so is what a deletion
    makes of it. *)
Lemma registry_consistent : consistent registry.
Proof.
  intros k row Hrow.
  assert (Hall : map_Forall (λ (k : Key) (row : Attrs),
            not_null_violated k.1 row = false
            ∧ foreign_key_violated k.1 row registry = false
            ∧ ¬ unique_violated k.1 row (base.delete k registry)) registry)
    by (apply (bool_decide_unpack _); vm_compute; exact I).
  by apply Hall.
Defined.

Lemma delete_keeps_consistent_witness :
  consistent (delete relations (Company, 3) registry).2.
Proof.
  rewrite <- (app_nil_r relations).
  apply delete_keeps_consistent, registry_consistent.
Defined.

(** ** More on deleting rows *)

Lemma size_filter_complement (s : gset Key) (db : DB) :
  size db
  = (size (filter (λ kr : Key * Attrs, kr.1 ∈ s) db)
     + size (filter (λ kr : Key * Attrs, kr.1 ∉ s) db))%nat.
Proof.
  rewrite <- map_size_disj_union
    by apply (map_disjoint_filter_complement (λ kr : Key * Attrs, kr.1 ∈ s)).
  by rewrite (map_filter_union_complement (λ kr : Key * Attrs, kr.1 ∈ s)).
Qed.

Section MoreDeletion.
Variable ext : list (Model * Field).

(** X14. For a model of the three files that takes part in no
    many-to-many relation and in no inheritance: deleting a stored row
    that no row points at removes that row and nothing else, and
    answers 1. *)
Theorem delete_unreferenced (k : Key) (row : Attrs) (db : DB) :
  single_row k.1 = true →
  db !! k = Some row →
  (∀ k' row' f, db !! k' = Some row' → (k'.1, f) ∈ (relations ++ ext)%list →
                target_of f row' ≠ Some k) →
  delete (relations ++ ext) k db = (Ok 1%nat, base.delete k db).
Proof.
  intros _ Hk Hnone.
  assert (Hrel : ∀ h, related_objects (relations ++ ext) h {[k]} db = ∅).
  { intros h. apply leibniz_equiv, elem_of_equiv_empty. intros k'.
    rewrite elem_of_related_objects.
    intros (row' & f & t & Hrow & Hf & _ & Ht & ->%elem_of_singleton).
    by apply (Hnone k' row' f). }
  unfold delete.
  assert (collect (relations ++ ext) db (size db) {[k]} {[k]} = Ok {[k]})
    as ->.
  { destruct (size db); simpl; rewrite !Hrel;
      rewrite decide_True by done;
      by rewrite decide_True by set_solver. }
  assert (Hkeep : filter (λ kr : Key * Attrs, kr.1 ∉ ({[k]} : gset Key)) db
                  = base.delete k db).
  { apply map_eq. intros k'. apply option_eq. intros row'.
    rewrite map_lookup_filter_Some, lookup_delete_Some. simpl.
    rewrite not_elem_of_singleton. naive_solver. }
  f_equal; [|done]. f_equal.
  pose proof (size_filter_complement {[k]} db) as Hsize.
  rewrite Hkeep, map_size_delete, Hk in Hsize.
  assert (size db ≠ 0%nat).
  { intros ->%map_size_empty_inv. by rewrite lookup_empty in Hk. }
  lia.
Qed.

(** X16. The cascade goes on to the Argentine extensions: when the
    deletion of a Company (of a Contact) goes through, every
    CompanyInvoiceAR (ContactInvoiceAR) row of a CompanyInvoice
    (ContactInvoice) of that owner is deleted as well. *)
Theorem delete_reaches_country_extensions
    (owner extension country : Model) (link country_link : string)
    (db db' : DB) (pk pk1 : Z) (n : nat) (row1 : Attrs)
    (k2 : Key) (row2 : Attrs) :
  (owner, extension, link, country, country_link)
    ∈ [(Company, CompanyInvoice, "persons_company",
        CompanyInvoiceAR, "invoice_company");
       (Contact, ContactInvoice, "contact_contact",
        ContactInvoiceAR, "invoice_contact")] →
  delete (relations ++ ext) (owner, pk) db = (Ok n, db') →
  db !! (extension, pk1) = Some row1 →
  column row1 link = VInt pk →
  db !! k2 = Some row2 →
  k2.1 = country →
  column row2 country_link = VInt pk1 →
  db' !! (extension, pk1) = None ∧ db' !! k2 = None.
Proof.
  intros Hchain (s & Hs & Hclosed & ->)%delete_Ok Hrow1 Hcol1 Hrow2 Hk2 Hcol2.
  assert (∃ f1 f2, (f1 ∈ fields extension
                    ∧ target_of f1 row1 = Some (owner, pk))
                   ∧ (f2 ∈ fields country
                      ∧ target_of f2 row2 = Some (extension, pk1)))
    as (f1 & f2 & [Hf1 Ht1] & [Hf2 Ht2]).
  { repeat (apply elem_of_cons in Hchain as [[= -> -> -> -> ->]|Hchain]);
      [| |by apply elem_of_nil in Hchain];
      (eexists _, _; split;
       [ match type of Hcol1 with
         | column _ ?l = _ =>
             eapply (link_target _ l);
               [vm_compute; reflexivity | reflexivity | done]
         end
       | match type of Hcol2 with
         | column _ ?l = _ =>
             eapply (link_target _ l);
               [vm_compute; reflexivity | reflexivity | done]
         end ]). }
  destruct (Hclosed (extension, pk1) row1 f1 (owner, pk) Hrow1
              ltac:(by eapply field_relation) Ht1 Hs) as [_ Hin1].
  rewrite <- Hk2 in Hf2.
  destruct (Hclosed k2 row2 f2 (extension, pk1) Hrow2
              ltac:(by eapply field_relation) Ht2 Hin1) as [_ Hin2].
  split; apply map_lookup_filter_None; right; intros ? _; simpl; tauto.
Qed.

(** X17. A Company or Contact whose invoicing extension is in use cannot
    be deleted: when some row points at its CompanyInvoice or
    ContactInvoice through a plain ForeignKey (a Product, an Invoice),
    the deletion of the owner raises ProtectedError and the database is
    left as it was. *)
Theorem owner_in_use_is_protected
    (owner extension : Model) (link : string)
    (db : DB) (pk pk1 : Z) (row1 : Attrs)
    (k2 : Key) (row2 : Attrs) (f : Field) :
  (owner, extension, link)
    ∈ [(Company, CompanyInvoice, "persons_company");
       (Contact, ContactInvoice, "contact_contact")] →
  db !! (extension, pk1) = Some row1 →
  column row1 link = VInt pk →
  db !! k2 = Some row2 →
  f ∈ fields k2.1 →
  is_foreign_key f = true →
  target_of f row2 = Some (extension, pk1) →
  delete (relations ++ ext) (owner, pk) db = (Err ProtectedError, db).
Proof.
  intros Hlink Hrow1 Hcol1 Hrow2 Hf Hfk Ht.
  destruct (delete_outcomes (relations ++ ext) (owner, pk) db)
    as [Herr|(s & Hs & Hclosed & _)]; [done|].
  assert (∃ f1, f1 ∈ fields extension ∧ target_of f1 row1 = Some (owner, pk))
    as (f1 & Hf1 & Ht1).
  { repeat (apply elem_of_cons in Hlink as [[= -> -> ->]|Hlink]);
      [| |by apply elem_of_nil in Hlink];
      (match type of Hcol1 with
       | column _ ?l = _ =>
           eexists; eapply (link_target _ l);
             [vm_compute; reflexivity | reflexivity | done]
       end). }
  destruct (Hclosed (extension, pk1) row1 f1 (owner, pk) Hrow1
              ltac:(by eapply field_relation) Ht1 Hs) as [_ Hin1].
  destruct (Hclosed k2 row2 f (extension, pk1) Hrow2
              ltac:(by eapply field_relation) Ht Hin1) as [Hcascade _].
  assert (handler f = PROTECT) as Hprotect.
  { apply (all_foreign_keys_to_extensions_protect k2.1 f extension);
      [done..| by apply target_of_remote in Ht |].
    repeat (apply elem_of_cons in Hlink as [[= -> -> ->]|Hlink]);
      [| |by apply elem_of_nil in Hlink]; repeat constructor. }
  congruence.
Qed.

End MoreDeletion.

(** X14 at the VAT rate of the registry, which no product uses yet. *)
Lemma delete_unreferenced_witness :
  delete relations (VAT, 1) registry
  = (Ok 1%nat, base.delete (VAT, 1) registry).
Proof.
  rewrite <- (app_nil_r relations).
  apply (delete_unreferenced [] (VAT, 1)
           (init VAT {[ "name" := VStr "21%";
                        "tax" := VNum (Q2Qc (21 # 100)) ]}) registry);
    [reflexivity | reflexivity |].
  intros k' row f Hrow Hf.
  assert (Hall : map_Forall (λ (k' : Key) (row : Attrs),
            Forall (λ r : Model * Field,
                      r.1 = k'.1 → target_of r.2 row ≠ Some (VAT, 1))
              relations) registry)
    by (apply (bool_decide_unpack _); vm_compute; exact I).
  rewrite app_nil_r in Hf. specialize (Hall k' row Hrow).
  rewrite Forall_forall in Hall. by apply (Hall (k'.1, f)).
Defined.

(** X16 at the second company of the registry: its CompanyInvoice and
    its CompanyInvoiceAR go with it. *)
Lemma delete_reaches_country_extensions_witness :
  (delete relations (Company, 2) registry).1 = Ok 3%nat
  ∧ (delete relations (Company, 2) registry).2 !! (CompanyInvoice, 2) = None
  ∧ (delete relations (Company, 2) registry).2 !! (CompanyInvoiceAR, 2) = None.
Proof.
  rewrite <- (app_nil_r relations).
  assert (Hr : (delete (relations ++ []) (Company, 2) registry).1 = Ok 3%nat)
    by (vm_compute; reflexivity).
  destruct (delete (relations ++ []) (Company, 2) registry) as [r db'] eqn:Hdel.
  simpl in Hr. subst r. split; [reflexivity|].
  apply (delete_reaches_country_extensions [] Company CompanyInvoice
           CompanyInvoiceAR "persons_company" "invoice_company"
           registry db' 2 2 3
           (init CompanyInvoice
              {[ "persons_company" := VInt 2; "legal_name" := VStr "Globex" ]})
           (CompanyInvoiceAR, 2)
           (init CompanyInvoiceAR {[ "invoice_company" := VInt 2 ]}));
    [repeat constructor | exact Hdel | reflexivity..].
Defined.

(** X17 at the company that sells the widget. *)
Lemma owner_in_use_is_protected_witness :
  delete relations (Company, 1) acme_shop = (Err ProtectedError, acme_shop).
Proof.
  rewrite <- (app_nil_r relations).
  apply (owner_in_use_is_protected [] Company CompanyInvoice "persons_company"
           acme_shop 1 1
           {[ "persons_company" := VInt 1; "legal_name" := VStr "ACME";
              "fiscal_address" := VInt 1 ]}
           (Product, 1)
           {[ "invoice_company" := VInt 1; "name" := VStr "widget";
              "vat" := VInt 1 ]}
           (mkField (ForeignKey CompanyInvoice) "invoice_company"
              [on_delete PROTECT])).
  - repeat constructor.
  - reflexivity.
  - reflexivity.
  - reflexivity.
  - apply (get_field_Some Product "invoice_company"). reflexivity.
  - reflexivity.
  - reflexivity.
Defined.

(** ** The __str__ methods *)

Lemma string_app_length (s t : string) :
  String.length (s +:+ t) = (String.length s + String.length t)%nat.
Proof.
  induction s as [|a s IH]; [reflexivity|].
  change (S (String.length (s +:+ t))
          = S (String.length s + String.length t)%nat).
  by rewrite IH.
Qed.

Lemma string_app_inv_tail (s1 s2 t : string) :
  s1 +:+ t = s2 +:+ t → s1 = s2.
Proof.
  revert s2. induction s1 as [|a s1 IH]; intros [|b s2] Heq.
  - done.
  - apply (f_equal String.length) in Heq.
    rewrite !string_app_length in Heq. simpl in Heq. lia.
  - apply (f_equal String.length) in Heq.
    rewrite !string_app_length in Heq. simpl in Heq. lia.
  - change (String a (s1 +:+ t) = String b (s2 +:+ t)) in Heq.
    injection Heq as -> Heq. f_equal. by apply IH.
Qed.

(** X18. ProductSales.__str__ returns self.product, which the class does
    not have: it raises AttributeError for every instance.  A sale line
    prints its product, a ProductSales, so SaleLine.__str__ never
    returns either. *)
Theorem product_sales_str_never_returns
    (Decimal__str__ : Qc → string) (date__str__ : Z → string)
    (db : DB) (self : Attrs) :
  ProductSales__str__ self = Raises AttributeError
  ∧ ∃ e, SaleLine__str__ Decimal__str__ date__str__ db self = Raises e.
Proof.
  split; [reflexivity|]. unfold SaleLine__str__.
  destruct (related db SaleLine self "product") as [[[k row]|]|e] eqn:E; simpl.
  - by eexists.
  - unfold related in E. simpl in E.
    destruct (column self "product"); try done.
    by destruct (db !! (ProductSales, z)).
  - by eexists.
Qed.

Lemma name_str_Returns (m : Model) (self : Attrs) (s : string) :
  getattr m self "name" ≫= return_str = Returns s →
  column self "name" = VStr s.
Proof.
  unfold getattr. destruct (get_field m "name"); simpl; [|done].
  unfold return_str. destruct (column self "name"); try done.
  by intros [= ->].
Qed.

Lemma consistent_unique (db : DB) (k1 k2 : Key) (r1 r2 : Attrs)
    (cols : list string) :
  consistent db →
  db !! k1 = Some r1 → db !! k2 = Some r2 → k1.1 = k2.1 →
  cols ∈ unique_constraints k1.1 →
  same_on cols r1 r2 →
  k1 = k2.
Proof.
  intros Hdb H1 H2 Hm Hcols Hsame.
  destruct (decide (k1 = k2)) as [|Hne]; [done|].
  destruct (Hdb k1 r1 H1) as (_ & _ & Huniq). destruct Huniq.
  unfold unique_violated. rewrite Exists_exists. exists cols.
  split; [done|]. exists k2, r2. by rewrite lookup_delete_ne.
Qed.

(** X19. Fiscal positions, VAT rates and concept types print as their
    name, and the name is unique: in a consistent database two rows of
    one of these tables whose __str__ returns the same text are the same
    row. *)
Theorem named_rows_print_differently
    (db : DB) (k1 k2 : Key) (r1 r2 : Attrs) (s : string) :
  consistent db →
  db !! k1 = Some r1 →
  db !! k2 = Some r2 →
  k1.1 = k2.1 →
  (k1.1 = FiscalPosition ∧ FiscalPosition__str__ r1 = Returns s
                         ∧ FiscalPosition__str__ r2 = Returns s)
  ∨ (k1.1 = VAT ∧ VAT__str__ r1 = Returns s ∧ VAT__str__ r2 = Returns s)
  ∨ (k1.1 = ConceptType ∧ ConceptType__str__ r1 = Returns s
                        ∧ ConceptType__str__ r2 = Returns s) →
  k1 = k2.
Proof.
  intros Hdb H1 H2 Hm Hstr.
  assert (column r1 "name" = VStr s ∧ column r2 "name" = VStr s
          ∧ ["name"] ∈ unique_constraints k1.1) as (Hn1 & Hn2 & Hcols).
  { destruct Hstr as [(-> & Hs1 & Hs2)|[(-> & Hs1 & Hs2)|(-> & Hs1 & Hs2)]];
      (split; [by eapply name_str_Returns|]);
      (split; [by eapply name_str_Returns|]);
      vm_compute; repeat constructor. }
  apply (consistent_unique db k1 k2 r1 r2 ["name"]); [done..|].
  repeat constructor; simpl; congruence.
Qed.

(** X19 at the fiscal position of the registry. *)
Lemma named_rows_print_differently_witness :
  FiscalPosition__str__
    (init FiscalPosition {[ "name" := VStr "Responsable Inscripto" ]})
  = Returns "Responsable Inscripto"
  ∧ (FiscalPosition, 1) = (FiscalPosition, 1).
Proof.
  split; [reflexivity|].
  apply (named_rows_print_differently registry _ _
           (init FiscalPosition {[ "name" := VStr "Responsable Inscripto" ]})
           (init FiscalPosition {[ "name" := VStr "Responsable Inscripto" ]})
           "Responsable Inscripto" registry_consistent);
    [reflexivity | reflexivity | reflexivity |].
  left. repeat split; reflexivity.
Defined.

Section Printing.
Variable Company__str__ : Key → Attrs → outcome string.
Variable Decimal__str__ : Qc → string.
Variable date__str__ : Z → string.

(** X20. A point of sale prints as its AFIP id, ' @ ' and its company.
    In a consistent database, two points of sale of the same company
    whose __str__ returns the same text are the same row. *)
Theorem points_of_sale_print_differently
    (db : DB) (k1 k2 : Key) (r1 r2 : Attrs) (company id1 id2 : Z)
    (s : string) :
  consistent db →
  db !! k1 = Some r1 → k1.1 = PointOfSaleAR →
  db !! k2 = Some r2 → k2.1 = PointOfSaleAR →
  column r1 "invoicear_company" = VInt company →
  column r2 "invoicear_company" = VInt company →
  column r1 "afip_id" = VInt id1 →
  column r2 "afip_id" = VInt id2 →
  PointOfSaleAR__str__ Company__str__ Decimal__str__ date__str__ db r1
  = Returns s →
  PointOfSaleAR__str__ Company__str__ Decimal__str__ date__str__ db r2
  = Returns s →
  k1 = k2.
Proof.
  intros Hdb H1 Hm1 H2 Hm2 Hc1 Hc2 Ha1 Ha2 Hs1 Hs2.
  unfold PointOfSaleAR__str__, getattr in Hs1, Hs2. simpl in Hs1, Hs2.
  rewrite Ha1 in Hs1. rewrite Ha2 in Hs2. simpl in Hs1, Hs2.
  assert (related db PointOfSaleAR r1 "invoicear_company"
          = related db PointOfSaleAR r2 "invoicear_company") as Hrel
    by (unfold related; simpl; by rewrite Hc1, Hc2).
  rewrite Hrel in Hs1.
  destruct (related db PointOfSaleAR r2 "invoicear_company"
              ≫= str_related (λ _, CompanyInvoiceAR__str__ Company__str__ db))
    as [c|]; simpl in Hs1, Hs2; [|done].
  injection Hs1 as Hs1. injection Hs2 as Hs2. rewrite <- Hs2 in Hs1.
  apply string_app_inv_tail, (inj pretty) in Hs1. subst id2.
  apply (consistent_unique db k1 k2 r1 r2 ["invoicear_company"; "afip_id"]);
    [done | done | done | congruence | |].
  - rewrite Hm1. vm_compute. repeat constructor.
  - repeat constructor; simpl; congruence.
Qed.

(** X21. A quotation and a sale print as their company, ' : ' and their
    primary key: two quotations (two sales) of the same company whose
    __str__ returns the same text have the same key. *)
Theorem documents_print_differently
    (db : DB) (pk1 pk2 : Z) (r1 r2 : Attrs) (company : Z) (s : string) :
  column r1 "persons_company" = VInt company →
  column r2 "persons_company" = VInt company →
  (Quotation__str__ Company__str__ Decimal__str__ date__str__ db pk1 r1
   = Returns s
   ∧ Quotation__str__ Company__str__ Decimal__str__ date__str__ db pk2 r2
     = Returns s)
  ∨ (Sale__str__ Company__str__ Decimal__str__ date__str__ db pk1 r1
     = Returns s
     ∧ Sale__str__ Company__str__ Decimal__str__ date__str__ db pk2 r2
       = Returns s) →
  pk1 = pk2.
Proof.
  intros Hc1 Hc2 Hstr.
  assert (∀ m, m = Quotation ∨ m = Sale →
            related db m r1 "persons_company"
            = related db m r2 "persons_company") as Hrel
    by (intros m [-> | ->]; unfold related; simpl; by rewrite Hc1, Hc2).
  destruct Hstr as [[Hs1 Hs2]|[Hs1 Hs2]];
    [ unfold Quotation__str__ in Hs1, Hs2;
      rewrite (Hrel Quotation ltac:(by left)) in Hs1
    | unfold Sale__str__ in Hs1, Hs2;
      rewrite (Hrel Sale ltac:(by right)) in Hs1 ];
    (destruct (_ ≫= str_related Company__str__) as [c|];
       simpl in Hs1, Hs2; [|done]);
    injection Hs1 as Hs1; injection Hs2 as Hs2; rewrite <- Hs2 in Hs1;
    apply (inj (String.append c)), (inj (String.append " : ")) in Hs1;
    by apply (inj pretty) in Hs1.
Qed.

End Printing.

(** X21 at quotation 7 of company 1, printed as 'ACME : 7'. *)
Lemma documents_print_differently_witness :
  let quotation : Attrs :=
    init Quotation {[ "persons_company" := VInt 1;
                      "quotation_date" := VDate 730000 ]} in
  Quotation__str__ (λ _ _, Returns "ACME") (λ _, "") (λ _, "") registry 7
    quotation = Returns "ACME : 7"
  ∧ 7 = 7.
Proof.
  intros quotation.
  assert (Hstr : Quotation__str__ (λ _ _, Returns "ACME") (λ _, "")
                   (λ _, "") registry 7 quotation = Returns "ACME : 7")
    by (vm_compute; reflexivity).
  split; [exact Hstr|].
  apply (documents_print_differently (λ _ _, Returns "ACME") (λ _, "")
           (λ _, "") registry 7 7 quotation quotation 1 "ACME : 7");
    [reflexivity | reflexivity |].
  left. exact (conj Hstr Hstr).
Defined.

(** X20 at a point of sale created in the registry, with companies
    printed as 'ACME'. *)
Lemma points_of_sale_print_differently_witness :
  let db1 :=
    (create PointOfSaleAR
       {[ "invoicear_company" := VInt 1; "afip_id" := VInt 4;
          "fantasy_name" := VStr "Centro"; "fiscal_address" := VInt 1 ]}
       registry).2 in
  ∃ row, db1 !! (PointOfSaleAR, 1) = Some row
         ∧ PointOfSaleAR__str__ (λ _ _, Returns "ACME") (λ _, "") (λ _, "")
             db1 row = Returns "4 @ ACME"
         ∧ (PointOfSaleAR, 1) = (PointOfSaleAR, 1).
Proof.
  intros db1.
  assert (Hdb : consistent db1).
  { intros k r Hr.
    assert (Hall : map_Forall (λ (k : Key) (r : Attrs),
              not_null_violated k.1 r = false
              ∧ foreign_key_violated k.1 r db1 = false
              ∧ ¬ unique_violated k.1 r (base.delete k db1)) db1)
      by (apply (bool_decide_unpack _); vm_compute; exact I).
    by apply Hall. }
  destruct (db1 !! (PointOfSaleAR, 1)) as [row|] eqn:Hrow;
    [|by vm_compute in Hrow].
  exists row.
  assert (Hrow' : Some row
                  = Some (init PointOfSaleAR
                            {[ "invoicear_company" := VInt 1;
                               "afip_id" := VInt 4;
                               "fantasy_name" := VStr "Centro";
                               "fiscal_address" := VInt 1 ]}))
    by (rewrite <- Hrow; vm_compute; reflexivity).
  injection Hrow' as ->. split; [reflexivity|].
  assert (Hstr : PointOfSaleAR__str__ (λ _ _, Returns "ACME") (λ _, "")
                   (λ _, "") db1
                   (init PointOfSaleAR
                      {[ "invoicear_company" := VInt 1; "afip_id" := VInt 4;
                         "fantasy_name" := VStr "Centro";
                         "fiscal_address" := VInt 1 ]})
                 = Returns "4 @ ACME") by (vm_compute; reflexivity).
  split; [exact Hstr|].
  apply (points_of_sale_print_differently (λ _ _, Returns "ACME")
           (λ _, "") (λ _, "") db1 _ _ _ _ 1 4 4 "4 @ ACME" Hdb
           Hrow eq_refl Hrow eq_refl); try reflexivity; exact Hstr.
Defined.
